(** * sdmx: tag/class registry, source registry and URN codec

    A shallow embedding of

    - [sdmx/format/xml.py]: the namespace table [NS], [qname], the
      class/tag correspondence [_CLS_TAG], [class_for_tag], [tag_for_class];
    - [sdmx/source/__init__.py]: [Source.__init__] (the merge of the
      [supports] mapping) and [add_source] over the module-level registry
      [sources];
    - the URN codec [sdmx.urn] ([make], [match]), whose module is exercised
      by [tests/test_urn.py].

    Python exceptions are values of [exn]; a call that may raise returns a
    [result]. *)

From Stdlib Require Import String Ascii List Bool Arith Lia.
From stdpp Require Import base option list strings pretty sorting gmap.

Local Open Scope string_scope.
Local Open Scope list_scope.

(** ** Exceptions and results *)

Inductive exn : Type :=
| KeyError (key : string)
| ValueError (msg : string)
| JSONDecodeError (doc : string)
| ValidationError (field : string)
| AssertionError.

Inductive result (E A : Type) : Type :=
| Ok (a : A)
| Raise (e : E).
Arguments Ok {E A} a.
Arguments Raise {E A} e.

Definition rbind {E A B} (r : result E A) (k : A -> result E B) : result E B :=
  match r with
  | Ok a => k a
  | Raise e => Raise e
  end.

Notation "'let?' x ':=' r 'in' k" := (rbind r (fun x => k))
  (at level 10, x name, r at level 100, k at level 200).

Fixpoint rmapM {E A B} (f : A -> result E B) (l : list A) : result E (list B) :=
  match l with
  | [] => Ok []
  | a :: l' =>
      let? b := f a in
      let? bs := rmapM f l' in
      Ok (b :: bs)
  end.

(** ** Strings *)

(** [s.split(c)] for a one-character separator: the list of the maximal
    runs between separators, never empty. *)
Fixpoint split_on (c : ascii) (s : string) : list string :=
  match s with
  | EmptyString => [""]
  | String a s' =>
      if Ascii.eqb a c then "" :: split_on c s'
      else match split_on c s' with
           | [] => [String a ""]
           | p :: ps => String a p :: ps
           end
  end.

(** [c in s] for a character [c]. *)
Fixpoint occurs (c : ascii) (s : string) : bool :=
  match s with
  | EmptyString => false
  | String a s' => Ascii.eqb a c || occurs c s'
  end.

(** [s.count(c)] for a character [c]. *)
Fixpoint count_char (c : ascii) (s : string) : nat :=
  match s with
  | EmptyString => 0
  | String a s' => (if Ascii.eqb a c then 1 else 0) + count_char c s'
  end.

(** ** sdmx/format/xml.py *)

Module Xml.

(** Classes of [sdmx.message] and [sdmx.model], identified by the module
    that defines them and their name there; [is] on two classes is
    equality of these. *)
Inductive pymodule : Type := message | model.

Record pyclass : Type := Class { cls_module : pymodule; cls_name : string }.

#[global] Instance pymodule_eq_dec : EqDecision pymodule.
Proof. solve_decision. Defined.

#[global] Instance pyclass_eq_dec : EqDecision pyclass.
Proof. solve_decision. Defined.

Definition pymodule_eqb (a b : pymodule) : bool :=
  match a, b with
  | message, message | model, model => true
  | _, _ => false
  end.

Definition class_is (a b : pyclass) : bool :=
  pymodule_eqb (cls_module a) (cls_module b)
  && String.eqb (cls_name a) (cls_name b).

(** [getattr(model, name)] *)
Definition getattr_model (name : string) : pyclass := Class model name.

(** [lxml.etree.QName]: a namespace URI (or none) and a local name.
    Two [QName]s compare equal when their [text] is the same. *)
Record QName : Type := MkQName { namespace : option string; localname : string }.

Definition text (q : QName) : string :=
  match namespace q with
  | Some uri => "{" +:+ uri +:+ "}" +:+ localname q
  | None => localname q
  end.

Definition QName_eqb (a b : QName) : bool := String.eqb (text a) (text b).

Definition _base_ns : string :=
  "http://www.sdmx.org/resources/sdmxml/schemas/v2_1".

Definition NS : list (string * option string) :=
  [ ("", None);
    ("com", Some (_base_ns +:+ "/common"));
    ("data", Some (_base_ns +:+ "/data/structurespecific"));
    ("str", Some (_base_ns +:+ "/structure"));
    ("mes", Some (_base_ns +:+ "/message"));
    ("gen", Some (_base_ns +:+ "/data/generic"));
    ("footer", Some (_base_ns +:+ "/message/footer"));
    ("xml", Some "http://www.w3.org/XML/1998/namespace");
    ("xsi", Some "http://www.w3.org/2001/XMLSchema-instance") ].

(** [NS[ns]] *)
Fixpoint dict_get {V} (d : list (string * V)) (k : string) : result exn V :=
  match d with
  | [] => Raise (KeyError k)
  | (k', v) :: d' => if String.eqb k' k then Ok v else dict_get d' k
  end.

(** The first argument of [qname] is a [QName] or a string. *)
Inductive qname_arg : Type :=
| OfQName (q : QName)
| OfStr (s : string).

(** [qname(ns_or_name, name)]. The last line builds the tag with the
    constructor [QName] of [lxml.etree]; the check that this constructor
    makes of the local name is not part of this module and is left out:
    the model returns a tag wherever the code does. *)
Definition qname (ns_or_name : qname_arg) (name : option string) : result exn QName :=
  match ns_or_name with
  | OfQName q => Ok q
  | OfStr s =>
      let? parts :=
        match name with
        | None =>
            match split_on ":" s with
            | [ns; name] => Ok (ns, name)
            | _ => Raise (ValueError "too many or not enough values to unpack")
            end
        | Some name => Ok (s, name)
        end in
      let? uri := dict_get NS (fst parts) in
      Ok (MkQName uri (snd parts))
  end.

Definition message_DataMessage := Class message "DataMessage".
Definition message_ErrorMessage := Class message "ErrorMessage".
Definition message_StructureMessage := Class message "StructureMessage".
Definition model_Agency := Class model "Agency".
Definition model_AttributeDescriptor := Class model "AttributeDescriptor".
Definition model_DataAttribute := Class model "DataAttribute".
Definition model_DataflowDefinition := Class model "DataflowDefinition".
Definition model_DataStructureDefinition := Class model "DataStructureDefinition".
Definition model_Dimension := Class model "Dimension".
Definition model_DimensionDescriptor := Class model "DimensionDescriptor".
Definition model_GroupDimensionDescriptor := Class model "GroupDimensionDescriptor".
Definition model_GroupKey := Class model "GroupKey".
Definition model_Key := Class model "Key".
Definition model_MeasureDescriptor := Class model "MeasureDescriptor".
Definition model_SeriesKey := Class model "SeriesKey".
Definition model_StructureUsage := Class model "StructureUsage".
Definition model_ItemScheme := Class model "ItemScheme".

(** The two halves of the literal [_CLS_TAG], before [qname] is applied. *)
Definition _CLS_TAG_head : list (pyclass * string) :=
  [ (message_DataMessage, "mes:GenericData");
    (message_DataMessage, "mes:GenericTimeSeriesData");
    (message_DataMessage, "mes:StructureSpecificData");
    (message_DataMessage, "mes:StructureSpecificTimeSeriesData");
    (message_ErrorMessage, "mes:Error");
    (message_StructureMessage, "mes:Structure");
    (model_Agency, "str:Agency");
    (model_Agency, "mes:Receiver");
    (model_Agency, "mes:Sender");
    (model_AttributeDescriptor, "str:AttributeList");
    (model_DataAttribute, "str:Attribute");
    (model_DataflowDefinition, "str:Dataflow");
    (model_DataStructureDefinition, "str:DataStructure");
    (model_DataStructureDefinition, "com:Structure");
    (model_DataStructureDefinition, "str:Structure");
    (model_Dimension, "str:Dimension");
    (model_Dimension, "str:DimensionReference");
    (model_Dimension, "str:GroupDimension");
    (model_DimensionDescriptor, "str:DimensionList");
    (model_GroupDimensionDescriptor, "str:Group");
    (model_GroupDimensionDescriptor, "str:AttachmentGroup");
    (model_GroupKey, "gen:GroupKey");
    (model_Key, "gen:ObsKey");
    (model_MeasureDescriptor, "str:MeasureList");
    (model_SeriesKey, "gen:SeriesKey");
    (model_StructureUsage, "com:StructureUsage") ].

Definition _CLS_TAG_names : list string :=
  [ "AgencyScheme"; "Categorisation"; "Category"; "CategoryScheme"; "Code";
    "Codelist"; "Concept"; "ConceptScheme"; "ContentConstraint";
    "DataConsumer"; "DataConsumerScheme"; "DataProvider";
    "DataProviderScheme"; "PrimaryMeasure"; "MeasureDimension";
    "TimeDimension" ].

(** Evaluation of the module-level expression that builds [_CLS_TAG]. *)
Definition build_CLS_TAG : result exn (list (pyclass * QName)) :=
  let? head :=
    rmapM (fun ct => let? q := qname (OfStr (snd ct)) None in Ok (fst ct, q))
          _CLS_TAG_head in
  let? tail :=
    rmapM (fun name =>
             let? q := qname (OfStr "str") (Some name) in
             Ok (getattr_model name, q))
          _CLS_TAG_names in
  Ok (head ++ tail).

Definition _CLS_TAG : list (pyclass * QName) :=
  Eval vm_compute in
    match build_CLS_TAG with
    | Ok l => l
    | Raise _ => []
    end.

(** [next(map(itemgetter(0), filter(lambda ct: ct[1] == tag, table)))],
    [None] on [StopIteration]. *)
Definition class_for_tag_in (table : list (pyclass * QName)) (tag : QName)
  : option pyclass :=
  head (map fst (List.filter (fun ct => QName_eqb (snd ct) tag) table)).

Definition tag_for_class_in (table : list (pyclass * QName)) (cls : pyclass)
  : option QName :=
  head (map snd (List.filter (fun ct => class_is (fst ct) cls) table)).

Definition class_for_tag : QName -> option pyclass := class_for_tag_in _CLS_TAG.
Definition tag_for_class : pyclass -> option QName := tag_for_class_in _CLS_TAG.

(** The tags [str:name] and [mes:name], written out. *)
Definition str_tag (name : string) : QName :=
  MkQName (Some "http://www.sdmx.org/resources/sdmxml/schemas/v2_1/structure")
          name.

Definition mes_tag (name : string) : QName :=
  MkQName (Some "http://www.sdmx.org/resources/sdmxml/schemas/v2_1/message")
          name.

End Xml.

(** ** sdmx/source/__init__.py *)

Module Source.

Inductive DataContentType : Type := XML | JSON.

Definition DataContentType_eqb (a b : DataContentType) : bool :=
  match a, b with
  | XML, XML | JSON, JSON => true
  | _, _ => false
  end.

(** A value given for [data_content_type]: a member of the enumeration
    or the name of one. *)
Inductive dct_value : Type :=
| DctMember (d : DataContentType)
| DctName (s : string).

(** An [info] dictionary, and the keyword arguments of [Source]: the
    keys that [Source] has fields for, each present or absent, with
    values of the annotated types. Other keys (as ["documentation"] in
    the catalogue) play no role. *)
Record info : Type := MkInfo {
  info_id : option string;
  info_url : option string;
  info_name : option string;
  info_headers : option (gmap string string);
  info_data_content_type : option dct_value;
  info_supports : option (gmap string bool)
}.

(** [sdmx.rest.Resource] is a [str]-valued enumeration; a member is
    represented by its name, the same string the JSON catalogue uses as
    a key of ["supports"]. The list of all members, [list(Resource)], is
    an argument [Resource] of the definitions below. *)

(** The class-level default of [Source.supports]. *)
Definition supports_default : gmap string bool :=
  list_to_map
    [ ("data", true);
      ("actualconstraint", false);
      ("allowedconstraint", false);
      ("attachementconstraint", false);
      ("customtypescheme", false);
      ("dataconsumerscheme", false);
      ("dataproviderscheme", false);
      ("hierarchicalcodelist", false);
      ("metadata", false);
      ("metadataflow", false);
      ("metadatastructure", false);
      ("namepersonalisationscheme", false);
      ("organisationunitscheme", false);
      ("process", false);
      ("reportingtaxonomy", false);
      ("rulesetscheme", false);
      ("schema", false);
      ("transformationscheme", false);
      ("userdefinedoperatorscheme", false);
      ("vtlmappingscheme", false) ].

(** The class [Source] or one of its per-source subclasses; a subclass
    may fix the identifier in a class attribute [_id]. *)
Record SourceClass : Type := MkSourceClass {
  sc_module : option string;
  _id : option string
}.

Definition Source_class : SourceClass := MkSourceClass None None.

Record Source : Type := MkSource {
  src_class : SourceClass;
  id : string;
  url : string;
  name : string;
  headers : gmap string string;
  data_content_type : DataContentType;
  supports : gmap string bool
}.

(** [d.update(other)]: the entries of [other] win. *)
Definition dict_update {V} (d other : gmap string V) : gmap string V :=
  other ∪ d.

(** [d.setdefault(k, v)] *)
Definition setdefault {V} (d : gmap string V) (k : string) (v : V)
  : gmap string V :=
  match d !! k with
  | Some _ => d
  | None => <[k := v]> d
  end.

(** [@validator("data_content_type", pre=True)] *)
Definition _validate_dct (value : dct_value) : result exn DataContentType :=
  match value with
  | DctMember d => Ok d
  | DctName "XML" => Ok XML
  | DctName "JSON" => Ok JSON
  | DctName s => Raise (KeyError s)
  end.

(** [@validator("id")]: [assert getattr(cls, "_id", value) == value] *)
Definition _validate_id (cls : SourceClass) (value : string) : result exn string :=
  if String.eqb (default value (_id cls)) value then Ok value
  else Raise AssertionError.

Definition required (field : string) (v : option string) : result exn string :=
  match v with
  | Some s => Ok s
  | None => Raise (ValidationError field)
  end.

(** Modelled from the spec: the field validation that [Source] inherits
    from [sdmx.util.BaseModel], which is not among the sources. A source
    configuration has an id, a base URL and a display name, a content type
    that is XML unless given, and malformed entries fail. The [supports]
    field of the new object starts as a copy of the class-level default. *)
Definition BaseModel_init (cls : SourceClass) (kwargs : info) : result exn Source :=
  let? i := required "id" (info_id kwargs) in
  let? i := _validate_id cls i in
  let? u := required "url" (info_url kwargs) in
  let? n := required "name" (info_name kwargs) in
  let? d :=
    match info_data_content_type kwargs with
    | None => Ok XML
    | Some v => _validate_dct v
    end in
  Ok (MkSource cls i u n (default ∅ (info_headers kwargs)) d supports_default).

(** [list(Resource) + ["preview", "structure-specific data"]] *)
Definition features (Resource : list string) : list string :=
  Resource ++ ["preview"; "structure-specific data"].

(** [Source.__init__(self, **kwargs)] *)
Definition Source_init (Resource : list string) (cls : SourceClass)
    (kwargs : info) : result exn Source :=
  let supports_arg := default ∅ (info_supports kwargs) in
  let? self := BaseModel_init cls kwargs in
  let merged := dict_update (supports self) supports_arg in
  let filled :=
    foldl (fun acc feature =>
             setdefault acc feature
               (DataContentType_eqb (data_content_type self) XML))
          merged (features Resource) in
  Ok (MkSource (src_class self) (id self) (url self) (name self)
               (headers self) (data_content_type self) filled).

(** [Source.from_dict(info)] *)
Definition from_dict (Resource : list string) (cls : SourceClass)
    (info : info) : result exn Source :=
  Source_init Resource cls info.

(** [repr] of a [str] of ASCII characters. *)
Definition hex_digit (n : nat) : ascii :=
  nth n (list_ascii_of_string "0123456789abcdef") "0"%char.

Definition double_quote : ascii := ascii_of_nat 34.
Definition backslash : ascii := ascii_of_nat 92.

Definition repr_char (quote c : ascii) : string :=
  let n := nat_of_ascii c in
  if Ascii.eqb c quote || Ascii.eqb c backslash then
    String backslash (String c "")
  else if Nat.eqb n 9 then String backslash "t"
  else if Nat.eqb n 10 then String backslash "n"
  else if Nat.eqb n 13 then String backslash "r"
  else if Nat.ltb n 32 || Nat.eqb n 127 then
    String backslash (String "x" (String (hex_digit (n / 16))
                                    (String (hex_digit (n mod 16)) "")))
  else String c "".

Fixpoint concat_map_chars (f : ascii -> string) (s : string) : string :=
  match s with
  | EmptyString => ""
  | String a s' => f a +:+ concat_map_chars f s'
  end.

Definition repr_str (s : string) : string :=
  let quote : ascii :=
    if occurs "'" s && negb (occurs double_quote s)
    then double_quote else "'"%char in
  String quote (concat_map_chars (repr_char quote) s +:+ String quote "").

(** [str.lower] on ASCII letters. *)
Definition lower_char (c : ascii) : ascii :=
  let n := nat_of_ascii c in
  if Nat.leb 65 n && Nat.leb n 90 then ascii_of_nat (n + 32) else c.

Fixpoint lower (s : string) : string :=
  match s with
  | EmptyString => ""
  | String a s' => String (lower_char a) (lower s')
  end.

(** The first argument of [add_source]: a dictionary or a JSON string. *)
Inductive info_arg : Type :=
| InfoDict (d : info)
| InfoStr (s : string).

(** What [add_source] reaches outside this module: [json.loads], the
    members of [Resource], and [import_module] for a per-source
    submodule of [sdmx.source], which yields that module's [Source]
    class or fails with [ImportError]. *)
Record Env : Type := MkEnv {
  json_loads : string -> result exn info;
  Resource : list string;
  import_module : string -> option SourceClass
}.

(** The module-level registry [sources]. *)
Abbreviation registry := (gmap string Source).

(** [_info["id"]] *)
Definition getitem_id (_info : info) : result exn string :=
  match info_id _info with
  | Some s => Ok s
  | None => Raise (KeyError "id")
  end.

(** [id or _info["id"]]: [None] and the empty string are false. *)
Definition id_or (id : option string) (_info : info) : result exn string :=
  match id with
  | Some (String a s) => Ok (String a s)
  | _ => getitem_id _info
  end.

Definition or_else {A} (a b : option A) : option A :=
  match a with
  | Some _ => a
  | None => b
  end.

(** [_info.update(kwargs)] *)
Definition info_update (_info kwargs : info) : info :=
  MkInfo (or_else (info_id kwargs) (info_id _info))
         (or_else (info_url kwargs) (info_url _info))
         (or_else (info_name kwargs) (info_name _info))
         (or_else (info_headers kwargs) (info_headers _info))
         (or_else (info_data_content_type kwargs) (info_data_content_type _info))
         (or_else (info_supports kwargs) (info_supports _info)).

Definition duplicate_error (id : string) : exn :=
  ValueError ("Data source " +:+ repr_str id
              +:+ " already defined; use override=True").

(** Statements that run on the module-level registry [sources]: the
    outcome, a value or a raised exception, and the registry as the
    statement leaves it. *)
Definition M (A : Type) : Type := registry -> result exn A * registry.

#[global] Instance M_ret : MRet M := fun A a sources => (Ok a, sources).

#[global] Instance M_bind : MBind M := fun A B k m sources =>
  match m sources with
  | (Ok a, sources') => k a sources'
  | (Raise e, sources') => (Raise e, sources')
  end.

Definition raise {A} (e : exn) : M A := fun sources => (Raise e, sources).

Definition lift {A} (r : result exn A) : M A := fun sources => (r, sources).

(** [id in sources] *)
Definition contains (id : string) : M bool :=
  fun sources => (Ok (bool_decide (is_Some (sources !! id))), sources).

(** [sources[id] = s] *)
Definition setitem (id : string) (s : Source) : M unit :=
  fun sources => (Ok tt, <[id := s]> sources).

(** [sources[id]] *)
Definition getitem (id : string) : M Source :=
  fun sources =>
    match sources !! id with
    | Some s => (Ok s, sources)
    | None => (Raise (KeyError id), sources)
    end.

(** [json.loads(info) if isinstance(info, str) else info] *)
Definition load (env : Env) (info : info_arg) : result exn Source.info :=
  match info with
  | InfoStr s => json_loads env s
  | InfoDict d => Ok d
  end.

(** The class that builds the source: [Source], unless a submodule of
    [sdmx.source] named after the lower-case id can be imported. *)
Definition find_class (env : Env) (id : string) : SourceClass :=
  match import_module env ("." +:+ lower id) with
  | None => Source_class
  | Some cls => cls
  end.

(** [add_source(info, id, override, **kwargs)] *)
Definition add_source (env : Env) (info : info_arg) (id : option string)
    (override : bool) (kwargs : Source.info) : M unit :=
  _info ← lift (load env info);
  id ← lift (id_or id _info);
  let _info := info_update _info kwargs in
  duplicate ← (if negb override then contains id else lift (Ok false));
  if (duplicate : bool) then raise (duplicate_error id)
  else
    let SourceClass := find_class env id in
    s ← lift (from_dict (Resource env) SourceClass _info);
    setitem id s.

(** The example of the docstring of [add_source], in an environment
    with a few members of [Resource], no JSON decoder and no per-source
    submodule. *)
Definition docstring_info : info :=
  MkInfo (Some "ESTAT")
         (Some "http://ec.europa.eu/eurostat/SDMX/diss-web/rest")
         (Some "Eurostat") None None
         (Some (list_to_map [("codelist", false); ("preview", true)])).

Definition no_kwargs : info := MkInfo None None None None None None.

(** A source that declares JSON, as the catalogue writes it. *)
Definition json_info : info :=
  MkInfo (Some "OECD") (Some "http://stats.oecd.org/SDMX-JSON") (Some "OECD")
         None (Some (DctName "JSON")) None.

Definition small_env : Env :=
  MkEnv (λ s, Raise (JSONDecodeError s))
        ["actualconstraint"; "codelist"; "data"; "dataflow"]
        (λ _, None).

Definition old_source : Source :=
  MkSource Source_class "ESTAT" "http://old.example" "Old" ∅ JSON ∅.

Definition old_sources : registry := {["ESTAT" := old_source]}.

(** The value given for [dsd] in the keyword arguments of a query: an
    instance of [DataStructureDefinition], or anything else. *)
Inductive dsd_value : Type :=
| DsdInstance (id : string)
| NotDsd.

(** The keyword arguments of a query, as [modify_request_args] sees them:
    the entry [dsd], the entry [headers] (a dictionary of strings), each
    present or absent, and the other entries. *)
Record request_args : Type := MkArgs {
  arg_dsd : option dsd_value;
  arg_headers : option (gmap string string);
  arg_rest : gmap string string
}.

Definition structurespecific_accept : string :=
  "application/vnd.sdmx.structurespecificdata+xml;" +:+ "version=2.1".

(** [Source.modify_request_args(self, kwargs)]: the dictionary [kwargs] as
    the call leaves it. *)
Definition modify_request_args (self : Source) (kwargs : request_args)
  : request_args :=
  if DataContentType_eqb (data_content_type self) XML then
    match arg_dsd kwargs with
    | Some (DsdInstance _) =>
        let headers := default ∅ (arg_headers kwargs) in
        MkArgs (arg_dsd kwargs)
               (Some (setdefault headers "Accept" structurespecific_accept))
               (arg_rest kwargs)
    | _ => kwargs
    end
  else kwargs.

(** [list_sources()]: [sorted(sources.keys())] *)
Definition list_sources : M (list string) :=
  fun sources => (Ok (merge_sort String.le (map_to_list sources).*1), sources).

(** [load_package_sources()], given the entries that [json.load] reads
    from [sources.json]: [add_source(info)] for each, in order. *)
Fixpoint load_package_sources (env : Env) (catalogue : list info) : M unit :=
  match catalogue with
  | [] => lift (Ok tt)
  | info :: rest =>
      _ ← add_source env (InfoDict info) None false no_kwargs;
      load_package_sources env rest
  end.

End Source.

(** ** sdmx.urn *)

Module Urn.

(** Modelled from the spec: the objects that [make] is given. The module
    [sdmx.model] is not among the sources. A maintainable artefact has a
    class, an id, an owning agency (its maintainer) and a version, the
    last two possibly absent; an item has a class, an id, and is nested
    or not in a maintainable artefact. *)
Record Agency : Type := MkAgency { agency_id : string }.

Record MaintainableArtefact : Type := MkMaintainable {
  ma_class : string;
  ma_id : string;
  maintainer : option Agency;
  version : option string;
  items : list string
}.

Inductive artefact : Type :=
| Maintainable (ma : MaintainableArtefact)
| Item (cls : string) (id : string) (scheme : option MaintainableArtefact).

Definition class_name (obj : artefact) : string :=
  match obj with
  | Maintainable ma => ma_class ma
  | Item cls _ _ => cls
  end.

(** Modelled from the spec: the error kinds of section 7 that the codec
    raises, with the messages that [tests/test_urn.py] expects. *)
Inductive error : Type :=
| NotMaintainable (obj parent : string)
| MissingMaintainer (ma : string)
| MissingVersion (ma : string)
| MalformedURN (value : string).

Definition message (e : error) : string :=
  match e with
  | NotMaintainable obj parent =>
      "Neither " +:+ obj +:+ " nor " +:+ parent +:+ " are maintainable"
  | MissingMaintainer ma =>
      "Cannot construct URN for " +:+ ma +:+ " without maintainer"
  | MissingVersion ma =>
      "Cannot construct URN for " +:+ ma +:+ " without version"
  | MalformedURN value => "not a valid SDMX URN: " +:+ value
  end.

Definition urn_prefix : string := "urn:sdmx:org.sdmx.infomodel.".

Section Make.

(** Modelled from the spec: the static table from a type to its
    package name, and the display representation of an object; both
    belong to [sdmx.model]. *)
Variable PACKAGE : string -> string.
Variable repr : artefact -> string.

(** Modelled from the spec: [make(obj, strict)] of [sdmx.urn],
    section 4.2, [build]. An item without an enclosing maintainable
    parent fails; a parent without maintainer fails; in strict mode a
    parent without version fails; otherwise the URN is produced, the
    version segment being left out when there is no version. *)
Definition make (strict : bool) (obj : artefact) : result error string :=
  let parent_and_extra :=
    match obj with
    | Maintainable ma => (Some ma, "")
    | Item _ id scheme => (scheme, "." +:+ id)
    end in
  match parent_and_extra.1 with
  | None => Raise (NotMaintainable (repr obj) "None")
  | Some ma =>
      match maintainer ma with
      | None => Raise (MissingMaintainer (repr (Maintainable ma)))
      | Some agency =>
          if strict && bool_decide (version ma = None) then
            Raise (MissingVersion (repr (Maintainable ma)))
          else
            Ok (urn_prefix +:+ PACKAGE (class_name obj) +:+ "."
                +:+ class_name obj +:+ "=" +:+ agency_id agency +:+ ":"
                +:+ ma_id ma
                +:+ match version ma with
                    | Some v => "(" +:+ v +:+ ")"
                    | None => ""
                    end
                +:+ parent_and_extra.2)
      end
  end.

End Make.

(** Modelled from the spec: the display representation in the messages
    that [tests/test_urn.py] expects, [<Code BAR>] for an item and
    [<Codelist BAZ:FOO (1 items)>] for an item scheme. *)
Definition repr_model (obj : artefact) : string :=
  match obj with
  | Item cls id _ => "<" +:+ cls +:+ " " +:+ id +:+ ">"
  | Maintainable ma =>
      "<" +:+ ma_class ma +:+ " "
      +:+ match maintainer ma with
          | Some a => agency_id a +:+ ":"
          | None => ""
          end
      +:+ ma_id ma +:+ " (" +:+ pretty (length (items ma)) +:+ " items)>"
  end.

(** The fields of a parsed URN. *)
Record fields : Type := MkFields {
  f_package : string;
  f_class : string;
  f_agency : string;
  f_id : string;
  f_version : string;
  f_item_id : option string
}.

(** [s] without the leading [p], when it starts with [p]. *)
Fixpoint strip_prefix (p s : string) : option string :=
  match p, s with
  | EmptyString, _ => Some s
  | String a p', String b s' =>
      if Ascii.eqb a b then strip_prefix p' s' else None
  | String _ _, EmptyString => None
  end.

(** [s] cut at the first [c]: what precedes it and what follows it. *)
Fixpoint split_first (c : ascii) (s : string) : option (string * string) :=
  match s with
  | EmptyString => None
  | String a s' =>
      if Ascii.eqb a c then Some ("", s')
      else match split_first c s' with
           | Some (before, after) => Some (String a before, after)
           | None => None
           end
  end.

(** Modelled from the spec: [match(value)] of [sdmx.urn], section 4.2,
    [parse]. The text is read strictly against
    [urn:sdmx:org.sdmx.infomodel.<package>.<ClassName>=<Agency>:<ID>(<Version>)[.<ItemID>]]:
    each field runs up to the delimiter that follows it, and the text
    ends after the version or goes on with [.] and the item id. Anything
    else is a [MalformedURN] that carries the text. *)
Definition urn_match (value : string) : result error fields :=
  let parsed : option fields :=
    r0 ← strip_prefix urn_prefix value;
    '(package, r1) ← split_first "." r0;
    '(cls, r2) ← split_first "=" r1;
    '(agency, r3) ← split_first ":" r2;
    '(id, r4) ← split_first "(" r3;
    '(version, r5) ← split_first ")" r4;
    match r5 with
    | EmptyString => Some (MkFields package cls agency id version None)
    | String "."%char item =>
        Some (MkFields package cls agency id version (Some item))
    | String _ _ => None
    end in
  match parsed with
  | Some f => Ok f
  | None => Raise (MalformedURN value)
  end.

(** The grammar of section 4.2, as written: a text matches when it is
    the fixed prefix followed by some package, class name, agency, id and
    version between the delimiters, and then nothing or [.] and an item
    id. *)
Definition URN_grammar (s : string) : Prop :=
  ∃ package cls agency id version tail,
    s = urn_prefix +:+ package +:+ "." +:+ cls +:+ "=" +:+ agency +:+ ":"
        +:+ id +:+ "(" +:+ version +:+ ")" +:+ tail
    ∧ (tail = "" ∨ ∃ item, tail = "." +:+ item).

(** The enclosing maintainable artefact and the item id of an object. *)
Definition parent_of (obj : artefact) : option MaintainableArtefact :=
  match obj with
  | Maintainable ma => Some ma
  | Item _ _ scheme => scheme
  end.

Definition item_id_of (obj : artefact) : option string :=
  match obj with
  | Maintainable _ => None
  | Item _ id _ => Some id
  end.

(** The parsed fields [f] are those of [obj]: the same agency, id,
    version and item id. *)
Definition same_fields (f : fields) (obj : artefact) : Prop :=
  ∃ ma agency,
    parent_of obj = Some ma
    ∧ maintainer ma = Some agency
    ∧ f_agency f = agency_id agency
    ∧ f_id f = ma_id ma
    ∧ version ma = Some (f_version f)
    ∧ f_item_id f = item_id_of obj.



(** The objects of [tests/test_urn.py]. *)
Definition cl_bare : MaintainableArtefact :=
  MkMaintainable "Codelist" "FOO" None None ["BAR"].
Definition cl_maintained : MaintainableArtefact :=
  MkMaintainable "Codelist" "FOO" (Some (MkAgency "BAZ")) None ["BAR"].
Definition cl : MaintainableArtefact :=
  MkMaintainable "Codelist" "FOO" (Some (MkAgency "BAZ")) (Some "1.2.3") ["BAR"].
Definition code (scheme : option MaintainableArtefact) : artefact :=
  Item "Code" "BAR" scheme.

Definition PACKAGE_codelist : string -> string := fun _ => "codelist".

(** The URN that [tests/test_urn.py] expects [match] to refuse. *)
Definition urn_without_class : string :=
  "urn:sdmx:org.sdmx.infomodel.codelist=BBK:CLA_BBK_COLLECTION(1.0)".

(** Two code lists that differ in agency and in id: the agency [A:B]
    with the id [C], and the agency [A] with the id [B:C]. *)
Definition cl_agency_colon : MaintainableArtefact :=
  MkMaintainable "Codelist" "C" (Some (MkAgency "A:B")) (Some "1") [].
Definition cl_id_colon : MaintainableArtefact :=
  MkMaintainable "Codelist" "B:C" (Some (MkAgency "A")) (Some "1") [].


End Urn.

(** * Properties *)

(** ** The tag/class registry *)

Section TagRegistry.
Import Xml.

Lemma class_is_eq (a b : pyclass) : class_is a b = true ↔ a = b.
Proof.
  destruct a as [ma na], b as [mb nb]; unfold class_is; simpl.
  rewrite andb_true_iff, String.eqb_eq. split.
  - intros [Hm ->]. by destruct ma, mb.
  - intros [= -> ->]. by destruct mb.
Qed.

Lemma class_is_neq (a b : pyclass) : class_is a b = false ↔ a ≠ b.
Proof.
  rewrite <- class_is_eq. destruct (class_is a b); split; congruence.
Qed.

Lemma QName_eqb_refl (q : QName) : QName_eqb q q = true.
Proof. apply String.eqb_refl. Qed.

(** The module-level expression evaluates without raising; its value is
    the table. *)
Lemma build_CLS_TAG_ok : build_CLS_TAG = Ok _CLS_TAG.
Proof. vm_compute. reflexivity. Qed.

Variable table : list (pyclass * QName).

(** The answer of [tag_for_class] is the tag of the first entry whose
    class is the one asked for. *)
Lemma tag_for_class_in_first (cls : pyclass) pre t post :
  table = pre ++ (cls, t) :: post →
  cls ∉ pre.*1 →
  tag_for_class_in table cls = Some t.
Proof.
  intros -> Hpre. unfold tag_for_class_in.
  induction pre as [|[c q] pre IH]; simpl.
  - assert (class_is cls cls = true) as -> by by apply class_is_eq.
    reflexivity.
  - assert (c ≠ cls ∧ (cls ∉ pre.*1)) as [Hc Hrest].
    { simpl in Hpre. apply not_elem_of_cons in Hpre as [? ?]. by split. }
    apply class_is_neq in Hc. rewrite Hc. by apply IH.
Qed.

Lemma first_entry (cls : pyclass) :
  cls ∈ table.*1 →
  ∃ pre t post, table = pre ++ (cls, t) :: post ∧ (cls ∉ pre.*1).
Proof.
  induction table as [|[c q] l IH]; simpl.
  - intros H. by apply elem_of_nil in H.
  - destruct (class_is c cls) eqn:E.
    + apply class_is_eq in E as ->. intros _.
      exists [], q, l. split; [done | apply not_elem_of_nil].
    + apply class_is_neq in E. intros [->|H]%elem_of_cons; [done |].
      destruct (IH H) as (pre & t & post & -> & Hpre).
      exists ((c, q) :: pre), t, post. split; [done |].
      simpl. intros [->|?]%elem_of_cons; done.
Qed.

Lemma filter_class_elem (cls : pyclass) :
  0 < length (List.filter (λ ct, class_is ct.1 cls) table) → cls ∈ table.*1.
Proof.
  induction table as [|[c q] l IH]; simpl; [lia |].
  destruct (class_is c cls) eqn:E.
  - apply class_is_eq in E as ->. intros _. left.
  - intros H. right. by apply IH.
Qed.

Lemma tag_for_class_in_None (cls : pyclass) :
  cls ∉ table.*1 → tag_for_class_in table cls = None.
Proof.
  unfold tag_for_class_in. induction table as [|[c q] l IH]; simpl; [done |].
  intros H. destruct (class_is c cls) eqn:E.
  - apply class_is_eq in E as ->. destruct H. left.
  - apply IH. intros ?. apply H. by right.
Qed.

(** When no two entries have the same tag, the class of a tag is the
    class of its only entry. *)
Lemma class_for_tag_in_entry (cls : pyclass) (t : QName) :
  NoDup ((text ∘ snd) <$> table) →
  (cls, t) ∈ table →
  class_for_tag_in table t = Some cls.
Proof.
  unfold class_for_tag_in. induction table as [|[c q] l IH]; simpl.
  - intros _ H. by apply elem_of_nil in H.
  - intros [Hq Hl]%NoDup_cons [[= <- <-]|Hin]%elem_of_cons.
    + by rewrite QName_eqb_refl.
    + destruct (QName_eqb q t) eqn:E; [| by apply IH].
      apply String.eqb_eq in E. destruct Hq.
      apply list_elem_of_fmap. exists (cls, t). by split.
Qed.

End TagRegistry.

Lemma _CLS_TAG_tags_NoDup : NoDup ((Xml.text ∘ snd) <$> Xml._CLS_TAG).
Proof. apply (bool_decide_unpack _). vm_compute. reflexivity. Qed.

(** C1. A class with more than one entry in [_CLS_TAG] gets from
    [tag_for_class] the tag of its first entry in the order of the table:
    the table splits into entries of other classes, then that first entry.
    [Agency] stands with [str:Agency], [mes:Receiver] and [mes:Sender] and
    gets [str:Agency]; [Dimension] stands with [str:Dimension],
    [str:DimensionReference] and [str:GroupDimension] and gets
    [str:Dimension]. *)
Theorem tag_for_class_first_declared :
  (∀ cls : Xml.pyclass,
     1 < length (List.filter (λ ct, Xml.class_is ct.1 cls) Xml._CLS_TAG) →
     ∃ pre t post,
       Xml._CLS_TAG = pre ++ (cls, t) :: post
       ∧ (cls ∉ pre.*1)
       ∧ Xml.tag_for_class cls = Some t)
  ∧ (List.filter (λ ct, Xml.class_is ct.1 Xml.model_Agency) Xml._CLS_TAG).*2
    = [Xml.str_tag "Agency"; Xml.mes_tag "Receiver"; Xml.mes_tag "Sender"]
  ∧ Xml.tag_for_class Xml.model_Agency = Some (Xml.str_tag "Agency")
  ∧ (List.filter (λ ct, Xml.class_is ct.1 Xml.model_Dimension) Xml._CLS_TAG).*2
    = [Xml.str_tag "Dimension"; Xml.str_tag "DimensionReference"; Xml.str_tag "GroupDimension"]
  ∧ Xml.tag_for_class Xml.model_Dimension = Some (Xml.str_tag "Dimension").
Proof.
  split; [| by vm_compute].
  intros cls Hcount.
  destruct (first_entry Xml._CLS_TAG cls) as (pre & t & post & Heq & Hpre).
  { apply filter_class_elem. lia. }
  exists pre, t, post. split_and!; [done | done |].
  by apply (tag_for_class_in_first _ cls pre t post).
Qed.

Lemma tag_for_class_first_declared_witness :
  1 < length (List.filter (λ ct, Xml.class_is ct.1 Xml.model_Agency) Xml._CLS_TAG)
  ∧ ∃ pre t post,
      Xml._CLS_TAG = pre ++ (Xml.model_Agency, t) :: post
      ∧ (Xml.model_Agency ∉ pre.*1)
      ∧ Xml.tag_for_class Xml.model_Agency = Some t.
Proof.
  assert (1 < length (List.filter (λ ct, Xml.class_is ct.1 Xml.model_Agency)
                        Xml._CLS_TAG)) as H.
  { vm_compute. repeat constructor. }
  split; [exact H |].
  exact (proj1 tag_for_class_first_declared Xml.model_Agency H).
Defined.

(** C2. For a class with an entry in [_CLS_TAG], [tag_for_class] gives a
    tag and [class_for_tag] of that tag gives the class back; for a class
    without entry, [ItemScheme] among them, [tag_for_class] gives [None]. *)
Theorem class_for_tag_tag_for_class :
  (∀ cls : Xml.pyclass,
     cls ∈ Xml._CLS_TAG.*1 →
     ∃ t, Xml.tag_for_class cls = Some t ∧ Xml.class_for_tag t = Some cls)
  ∧ (∀ cls : Xml.pyclass,
       cls ∉ Xml._CLS_TAG.*1 → Xml.tag_for_class cls = None)
  ∧ (Xml.model_ItemScheme ∉ Xml._CLS_TAG.*1)
  ∧ Xml.tag_for_class Xml.model_ItemScheme = None.
Proof.
  split_and!.
  - intros cls Hin.
    destruct (first_entry Xml._CLS_TAG cls Hin) as (pre & t & post & Heq & Hpre).
    exists t. split.
    + by apply (tag_for_class_in_first _ cls pre t post).
    + apply class_for_tag_in_entry; [apply _CLS_TAG_tags_NoDup |].
      rewrite Heq. apply elem_of_app. right. left.
  - apply tag_for_class_in_None.
  - apply (bool_decide_unpack _). by vm_compute.
  - by vm_compute.
Qed.

Lemma class_for_tag_tag_for_class_witness :
  Xml.Class Xml.model "Code" ∈ Xml._CLS_TAG.*1
  ∧ ∃ t, Xml.tag_for_class (Xml.Class Xml.model "Code") = Some t
         ∧ Xml.class_for_tag t = Some (Xml.Class Xml.model "Code").
Proof.
  assert (Xml.Class Xml.model "Code" ∈ Xml._CLS_TAG.*1) as H.
  { apply (bool_decide_unpack _). vm_compute. reflexivity. }
  split; [exact H |].
  exact (proj1 class_for_tag_tag_for_class _ H).
Defined.

(** ** Source configurations and the source registry *)

Section SourceRegistry.
Import Source.

Lemma setdefault_lookup {V} (d : gmap string V) (k : string) (v : V) (j : string) :
  setdefault d k v !! j
  = match d !! j with
    | Some w => Some w
    | None => if bool_decide (j = k) then Some v else None
    end.
Proof.
  unfold setdefault. destruct (d !! k) eqn:Ek.
  - destruct (d !! j) eqn:Ej; [done |].
    case_bool_decide; [congruence | done].
  - rewrite lookup_insert. case_decide as Hkj.
    + subst j. rewrite Ek. by rewrite bool_decide_eq_true_2.
    + rewrite bool_decide_eq_false_2 by congruence. by destruct (d !! j).
Qed.

(** The loop over the features fills in what is missing and leaves
    every entry that is there. *)
Lemma setdefault_loop_lookup {V} (fs : list string) (d : gmap string V) (v : V)
    (j : string) :
  foldl (λ acc feature, setdefault acc feature v) d fs !! j
  = match d !! j with
    | Some w => Some w
    | None => if bool_decide (j ∈ fs) then Some v else None
    end.
Proof.
  revert d. induction fs as [|f fs IH]; intros d; simpl.
  - by destruct (d !! j).
  - rewrite IH, setdefault_lookup. destruct (d !! j); [done |].
    destruct (decide (j = f)) as [->|Hne].
    + rewrite bool_decide_eq_true_2 by done.
      rewrite bool_decide_eq_true_2 by left. done.
    + rewrite bool_decide_eq_false_2 by done.
      rewrite (bool_decide_ext (j ∈ f :: fs) (j ∈ fs)); [done |].
      rewrite elem_of_cons. intuition congruence.
Qed.

Lemma BaseModel_init_supports cls kwargs self :
  BaseModel_init cls kwargs = Ok self → supports self = supports_default.
Proof.
  unfold BaseModel_init, rbind. repeat case_match; try discriminate.
  all: by intros [= <-].
Qed.

Lemma Source_init_supports (R : list string) cls kwargs src :
  Source_init R cls kwargs = Ok src →
  supports src
  = foldl (λ acc feature,
             setdefault acc feature
               (DataContentType_eqb (data_content_type src) XML))
          (dict_update supports_default (default ∅ (info_supports kwargs)))
          (features R).
Proof.
  unfold Source_init.
  destruct (BaseModel_init cls kwargs) as [self|e] eqn:E; simpl; [| done].
  intros [= <-]. simpl. by rewrite (BaseModel_init_supports _ _ _ E).
Qed.

(** Running the statements of [add_source] one after the other. *)
Lemma add_source_run (env : Env) info id override kwargs (sources : registry) :
  add_source env info id override kwargs sources
  = match load env info with
    | Raise e => (Raise e, sources)
    | Ok _info =>
        match id_or id _info with
        | Raise e => (Raise e, sources)
        | Ok key =>
            if negb override && bool_decide (is_Some (sources !! key)) then
              (Raise (duplicate_error key), sources)
            else
              match from_dict (Resource env) (find_class env key)
                      (info_update _info kwargs) with
              | Raise e => (Raise e, sources)
              | Ok s => (Ok (), <[key := s]> sources)
              end
        end
    end.
Proof.
  unfold add_source, mbind, M_bind, lift, contains, raise, setitem.
  destruct (load env info) as [_info|e]; [| done].
  destruct (id_or id _info) as [key|e]; [| done].
  destruct override; simpl.
  - by destruct (from_dict _ _ _).
  - destruct (bool_decide (is_Some (sources !! key))); [done |].
    by destruct (from_dict _ _ _).
Qed.

(** Whatever [add_source] raises, it has not touched the registry. *)
Lemma add_source_raise_unchanged (env : Env) info id override kwargs
    (sources : registry) e sources' :
  add_source env info id override kwargs sources = (Raise e, sources') →
  sources' = sources.
Proof.
  rewrite add_source_run. repeat case_match; congruence.
Qed.

End SourceRegistry.

(** C3, as the code has it. A feature that the [supports] argument does
    not mention is reported as the class-level default of
    [Source.supports] says, when that table lists it ([data] supported, the
    nineteen others unsupported, whatever the content type), and otherwise
    as supported exactly when the data content type is XML. *)
Theorem supports_unspecified (R : list string) (cls : Source.SourceClass)
    (kwargs : Source.info) (src : Source.Source) (feature : string) :
  Source.Source_init R cls kwargs = Ok src →
  feature ∈ Source.features R →
  default ∅ (Source.info_supports kwargs) !! feature = None →
  (Source.supports_default !! feature = None →
   Source.supports src !! feature
   = Some (Source.DataContentType_eqb (Source.data_content_type src) Source.XML))
  ∧ (∀ b, Source.supports_default !! feature = Some b →
          Source.supports src !! feature = Some b).
Proof.
  intros Hinit Hin Harg.
  rewrite (Source_init_supports _ _ _ _ Hinit), setdefault_loop_lookup.
  unfold Source.dict_update. rewrite lookup_union, Harg, (left_id None _).
  split.
  - intros ->. by rewrite bool_decide_eq_true_2.
  - by intros b ->.
Qed.

Lemma supports_unspecified_witness :
  ∃ src,
    Source.Source_init (Source.Resource Source.small_env) Source.Source_class
      Source.docstring_info = Ok src
    ∧ Source.supports src !! "dataflow" = Some true
    ∧ Source.supports src !! "actualconstraint" = Some false.
Proof.
  eexists. split; [reflexivity |].
  split.
  - refine (proj1 (supports_unspecified (Source.Resource Source.small_env)
                     Source.Source_class Source.docstring_info _ "dataflow"
                     eq_refl _ _) _).
    + apply (bool_decide_unpack _). vm_compute. reflexivity.
    + vm_compute. reflexivity.
    + vm_compute. reflexivity.
  - refine (proj2 (supports_unspecified (Source.Resource Source.small_env)
                     Source.Source_class Source.docstring_info _
                     "actualconstraint" eq_refl _ _) false _).
    + apply (bool_decide_unpack _). vm_compute. reflexivity.
    + vm_compute. reflexivity.
    + vm_compute. reflexivity.
Defined.

(** C3, as the claim has it, fails: an XML source built without any
    [supports] argument reports [actualconstraint] as unsupported. *)
Lemma actualconstraint_default_unsupported :
  ¬ (∀ (R : list string) (cls : Source.SourceClass) (kwargs : Source.info)
       (src : Source.Source) (feature : string),
       Source.Source_init R cls kwargs = Ok src →
       feature ∈ Source.features R →
       default ∅ (Source.info_supports kwargs) !! feature = None →
       Source.supports src !! feature
       = Some (Source.DataContentType_eqb (Source.data_content_type src)
                 Source.XML)).
Proof.
  intros H.
  specialize (H ["actualconstraint"] Source.Source_class
                (Source.MkInfo (Some "X") (Some "http://x") (Some "X")
                   None None None)
                _ "actualconstraint" eq_refl).
  assert ("actualconstraint" ∈ Source.features ["actualconstraint"]) as Hin
    by left.
  specialize (H Hin eq_refl). vm_compute in H. discriminate H.
Qed.

(** C9. When the id is already in the registry, [add_source] without
    [override] raises the [ValueError] for a duplicate source; the same
    call with [override=True] succeeds, given that the configuration
    can be built from [info], and [sources[id]] is then that new
    configuration. *)
Theorem add_source_duplicate_then_override (env : Source.Env)
    (info : Source.info_arg) (id : option string) (kwargs : Source.info)
    (sources : gmap string Source.Source) (_info : Source.info)
    (key : string) (old new : Source.Source) :
  Source.load env info = Ok _info →
  Source.id_or id _info = Ok key →
  sources !! key = Some old →
  Source.from_dict (Source.Resource env) (Source.find_class env key)
    (Source.info_update _info kwargs) = Ok new →
  Source.add_source env info id false kwargs sources
  = (Raise (ValueError ("Data source " +:+ Source.repr_str key
                        +:+ " already defined; use override=True")),
     sources)
  ∧ (Source.add_source env info id true kwargs ≫= λ _, Source.getitem key)
      sources
    = (Ok new, <[key := new]> sources).
Proof.
  intros Hload Hid Hold Hnew. split.
  - rewrite add_source_run, Hload, Hid. simpl.
    rewrite bool_decide_eq_true_2 by (rewrite Hold; eauto). reflexivity.
  - unfold mbind, Source.M_bind.
    rewrite add_source_run, Hload, Hid, Hnew. simpl.
    unfold Source.getitem. by rewrite lookup_insert_eq.
Qed.

Lemma add_source_duplicate_then_override_witness :
  ∃ new,
    (Source.add_source Source.small_env (Source.InfoDict Source.docstring_info)
       None false Source.no_kwargs Source.old_sources).1
    = Raise (ValueError "Data source 'ESTAT' already defined; use override=True")
    ∧ (Source.add_source Source.small_env
         (Source.InfoDict Source.docstring_info) None true Source.no_kwargs
       ≫= λ _, Source.getitem "ESTAT") Source.old_sources
      = (Ok new, <[ "ESTAT" := new ]> Source.old_sources)
    ∧ Source.name new = "Eurostat".
Proof.
  eexists.
  destruct (add_source_duplicate_then_override Source.small_env
              (Source.InfoDict Source.docstring_info) None Source.no_kwargs
              Source.old_sources Source.docstring_info "ESTAT"
              Source.old_source _
              eq_refl eq_refl eq_refl eq_refl) as [H1 H2].
  split_and!.
  - rewrite H1. reflexivity.
  - exact H2.
  - reflexivity.
Defined.

(** C10. When [add_source] raises the duplicate-source error, the
    registry it leaves is the registry it found. *)
Theorem add_source_duplicate_registry_unchanged (env : Source.Env)
    (info : Source.info_arg) (id : option string) (override : bool)
    (kwargs : Source.info) (sources : gmap string Source.Source)
    (key : string) :
  (Source.add_source env info id override kwargs sources).1
  = Raise (Source.duplicate_error key) →
  (Source.add_source env info id override kwargs sources).2 = sources.
Proof.
  destruct (Source.add_source env info id override kwargs sources)
    as [r sources'] eqn:E.
  simpl. intros ->. by eapply add_source_raise_unchanged.
Qed.

Lemma add_source_duplicate_registry_unchanged_witness :
  (Source.add_source Source.small_env (Source.InfoDict Source.docstring_info)
     None false Source.no_kwargs Source.old_sources).1
  = Raise (Source.duplicate_error "ESTAT")
  ∧ (Source.add_source Source.small_env (Source.InfoDict Source.docstring_info)
       None false Source.no_kwargs Source.old_sources).2 = Source.old_sources.
Proof.
  assert ((Source.add_source Source.small_env
             (Source.InfoDict Source.docstring_info) None false
             Source.no_kwargs Source.old_sources).1
          = Raise (Source.duplicate_error "ESTAT")) as H.
  { vm_compute. reflexivity. }
  split; [exact H |].
  exact (add_source_duplicate_registry_unchanged _ _ _ _ _ _ "ESTAT" H).
Defined.

(** ** The URN codec *)

Section UrnStrings.
Import Urn.
Local Arguments String.append !_ _ / : simpl nomatch.

Lemma app_assoc_string (a b c : string) : (a +:+ b) +:+ c = a +:+ (b +:+ c).
Proof. induction a as [|x a IH]; simpl; [done | by rewrite IH]. Qed.

Lemma occurs_app (c : ascii) (a b : string) :
  occurs c (a +:+ b) = occurs c a || occurs c b.
Proof.
  induction a as [|x a IH]; simpl; [done |].
  rewrite IH. by rewrite orb_assoc.
Qed.

Lemma strip_prefix_app (p r : string) : strip_prefix p (p +:+ r) = Some r.
Proof.
  induction p as [|x p IH]; simpl; [by destruct r |].
  by rewrite Ascii.eqb_refl.
Qed.

Lemma strip_prefix_Some (p s r : string) :
  strip_prefix p s = Some r → s = p +:+ r.
Proof.
  revert s. induction p as [|x p IH]; intros [|y s]; simpl; try congruence.
  destruct (Ascii.eqb x y) eqn:E; [| done].
  apply Ascii.eqb_eq in E as ->. intros H. by rewrite (IH _ H).
Qed.

(** Cutting at the first [c] gives back the two sides of a [c] that
    nothing before it equals. *)
Lemma split_first_app (c : ascii) (a b : string) :
  occurs c a = false → split_first c (a +:+ String c b) = Some (a, b).
Proof.
  induction a as [|x a IH]; simpl.
  - by rewrite Ascii.eqb_refl.
  - intros [Hx Ha]%orb_false_iff. by rewrite Hx, (IH Ha).
Qed.

Lemma split_first_Some (c : ascii) (s a b : string) :
  split_first c s = Some (a, b) → s = a +:+ String c b ∧ occurs c a = false.
Proof.
  revert a. induction s as [|x s IH]; intros a; simpl; [done |].
  destruct (Ascii.eqb x c) eqn:E.
  - apply Ascii.eqb_eq in E as ->. by intros [= <- <-].
  - destruct (split_first c s) as [[a' b']|]; [| done].
    intros [= <- <-]. destruct (IH a' eq_refl) as [-> Ha'].
    simpl. by rewrite E.
Qed.

(** Whatever precedes some [c], the cut at the first [c] succeeds, and
    what follows that [c] ends with what followed this one. *)
Lemma split_first_suffix (c : ascii) (a b : string) :
  ∃ a' m, split_first c (a +:+ String c b) = Some (a', m +:+ b).
Proof.
  induction a as [|x a (a' & m & IH)]; simpl.
  - exists "", "". by rewrite Ascii.eqb_refl.
  - destruct (Ascii.eqb x c).
    + exists "", (a +:+ String c ""). by rewrite app_assoc_string.
    + rewrite IH. by exists (String x a'), m.
Qed.

(** A text that matches the grammar starts with the prefix, and past the
    first [.] after the prefix there is an [=]. *)
Lemma URN_grammar_needs (s : string) :
  URN_grammar s →
  ∃ r0 package r1,
    strip_prefix urn_prefix s = Some r0
    ∧ split_first "." r0 = Some (package, r1)
    ∧ occurs "=" r1 = true.
Proof.
  intros (package & cls & agency & id & version & tail & -> & _).
  rewrite strip_prefix_app.
  destruct (split_first_suffix "." package
              (cls +:+ "=" +:+ agency +:+ ":" +:+ id +:+ "(" +:+ version
               +:+ ")" +:+ tail)) as (a' & m & Hsplit).
  eexists _, a', _. split; [done |]. split; [exact Hsplit |].
  rewrite !occurs_app. simpl. by rewrite !orb_true_r.
Qed.

(** What [match] accepts has the shape of the grammar, with the fields
    it returns between the delimiters. *)
Lemma urn_match_Ok (s : string) (f : fields) :
  urn_match s = Ok f →
  s = urn_prefix +:+ f_package f +:+ "." +:+ f_class f +:+ "=" +:+ f_agency f
      +:+ ":" +:+ f_id f +:+ "(" +:+ f_version f +:+ ")"
      +:+ match f_item_id f with
          | Some item => "." +:+ item
          | None => ""
          end.
Proof.
  unfold urn_match.
  destruct (strip_prefix urn_prefix s) as [r0|] eqn:E0; simpl; [| done].
  destruct (split_first "." r0) as [[package r1]|] eqn:E1; simpl; [| done].
  destruct (split_first "=" r1) as [[cls r2]|] eqn:E2; simpl; [| done].
  destruct (split_first ":" r2) as [[agency r3]|] eqn:E3; simpl; [| done].
  destruct (split_first "(" r3) as [[id r4]|] eqn:E4; simpl; [| done].
  destruct (split_first ")" r4) as [[version r5]|] eqn:E5; simpl; [| done].
  apply strip_prefix_Some in E0 as ->.
  apply split_first_Some in E1 as [-> _].
  apply split_first_Some in E2 as [-> _].
  apply split_first_Some in E3 as [-> _].
  apply split_first_Some in E4 as [-> _].
  apply split_first_Some in E5 as [-> _].
  destruct r5 as [|x item]; [by intros [= <-] |].
  destruct (Ascii.eqb x ".") eqn:Ex.
  - apply Ascii.eqb_eq in Ex as ->. by intros [= <-].
  - repeat case_match; first [done | by rewrite Ascii.eqb_refl in Ex].
Qed.

Lemma urn_match_Ok_grammar (s : string) (f : fields) :
  urn_match s = Ok f → URN_grammar s.
Proof.
  intros H%urn_match_Ok.
  exists (f_package f), (f_class f), (f_agency f), (f_id f), (f_version f).
  eexists. split; [exact H |].
  destruct (f_item_id f); [right; eauto | by left].
Qed.

Lemma urn_match_outcome (s : string) :
  (∃ f, urn_match s = Ok f) ∨ urn_match s = Raise (MalformedURN s).
Proof. unfold urn_match. case_match; eauto. Qed.

End UrnStrings.

Section UrnCodec.
Import Urn.
Local Arguments String.append !_ _ / : simpl nomatch.

Variable PACKAGE : string → string.
Variable repr : artefact → string.


End UrnCodec.

(** The expectations of [tests/test_urn.py], step by step, on the model. *)
Example test_make :
  Urn.message <$> (match Urn.make Urn.PACKAGE_codelist Urn.repr_model false
                           (Urn.code None) with
                   | Raise e => Some e
                   | Ok _ => None
                   end)
  = Some "Neither <Code BAR> nor None are maintainable"
  ∧ Urn.make Urn.PACKAGE_codelist Urn.repr_model false
      (Urn.code (Some Urn.cl_bare))
    = Raise (Urn.MissingMaintainer "<Codelist FOO (1 items)>")
  ∧ Urn.make Urn.PACKAGE_codelist Urn.repr_model true
      (Urn.code (Some Urn.cl_maintained))
    = Raise (Urn.MissingVersion "<Codelist BAZ:FOO (1 items)>")
  ∧ Urn.make Urn.PACKAGE_codelist Urn.repr_model false (Urn.code (Some Urn.cl))
    = Ok "urn:sdmx:org.sdmx.infomodel.codelist.Code=BAZ:FOO(1.2.3).BAR"
  ∧ Urn.make Urn.PACKAGE_codelist Urn.repr_model false (Urn.Maintainable Urn.cl)
    = Ok "urn:sdmx:org.sdmx.infomodel.codelist.Codelist=BAZ:FOO(1.2.3)".
Proof. by vm_compute. Qed.

(** C4. For an item that is in no maintainable artefact, [make] fails
    with the error that names the item and says that neither it nor its
    parent is maintainable; for an item of an artefact without maintainer,
    [make] fails with the error that names the artefact as it is displayed
    and says that the URN cannot be made without maintainer. Both hold
    in strict mode and out of it. *)
Theorem make_item_errors (PACKAGE : string → string)
    (repr : Urn.artefact → string) (strict : bool) (cls id : string) :
  (Urn.make PACKAGE repr strict (Urn.Item cls id None)
   = Raise (Urn.NotMaintainable (repr (Urn.Item cls id None)) "None")
   ∧ Urn.message (Urn.NotMaintainable (repr (Urn.Item cls id None)) "None")
     = "Neither " +:+ repr (Urn.Item cls id None)
       +:+ " nor None are maintainable")
  ∧ (∀ ma : Urn.MaintainableArtefact,
       Urn.maintainer ma = None →
       Urn.make PACKAGE repr strict (Urn.Item cls id (Some ma))
       = Raise (Urn.MissingMaintainer (repr (Urn.Maintainable ma)))
       ∧ Urn.message (Urn.MissingMaintainer (repr (Urn.Maintainable ma)))
         = "Cannot construct URN for " +:+ repr (Urn.Maintainable ma)
           +:+ " without maintainer").
Proof.
  split; [done |].
  intros ma Hm. unfold Urn.make. simpl. by rewrite Hm.
Qed.

Lemma make_item_errors_witness :
  Urn.maintainer Urn.cl_bare = None
  ∧ Urn.make Urn.PACKAGE_codelist Urn.repr_model false
      (Urn.code (Some Urn.cl_bare))
    = Raise (Urn.MissingMaintainer "<Codelist FOO (1 items)>")
  ∧ Urn.message (Urn.MissingMaintainer "<Codelist FOO (1 items)>")
    = "Cannot construct URN for <Codelist FOO (1 items)> without maintainer".
Proof.
  split; [reflexivity |].
  exact (proj2 (make_item_errors Urn.PACKAGE_codelist Urn.repr_model false
                  "Code" "BAR") Urn.cl_bare eq_refl).
Defined.

(** C5. When the maintainable parent of an object (the object itself, if
    it is maintainable) has a maintainer and no version, [make] in strict
    mode fails with the error that names the parent, maintainer included,
    and says that the URN cannot be made without version; out of strict
    mode it returns the URN with no version segment. *)
Theorem make_without_version (PACKAGE : string → string)
    (repr : Urn.artefact → string) (obj : Urn.artefact)
    (ma : Urn.MaintainableArtefact) (agency : Urn.Agency) :
  Urn.parent_of obj = Some ma →
  Urn.maintainer ma = Some agency →
  Urn.version ma = None →
  Urn.make PACKAGE repr true obj
  = Raise (Urn.MissingVersion (repr (Urn.Maintainable ma)))
  ∧ Urn.message (Urn.MissingVersion (repr (Urn.Maintainable ma)))
    = "Cannot construct URN for " +:+ repr (Urn.Maintainable ma)
      +:+ " without version"
  ∧ Urn.make PACKAGE repr false obj
    = Ok (Urn.urn_prefix +:+ PACKAGE (Urn.class_name obj) +:+ "."
          +:+ Urn.class_name obj +:+ "=" +:+ Urn.agency_id agency +:+ ":"
          +:+ Urn.ma_id ma
          +:+ match Urn.item_id_of obj with
              | Some id => "." +:+ id
              | None => ""
              end).
Proof.
  intros Hp Hm Hv. unfold Urn.make.
  destruct obj as [ma'|cls id scheme]; simpl in *; simplify_eq;
    rewrite Hm, Hv; simpl; done.
Qed.

Lemma make_without_version_witness :
  Urn.make Urn.PACKAGE_codelist Urn.repr_model true
    (Urn.code (Some Urn.cl_maintained))
  = Raise (Urn.MissingVersion "<Codelist BAZ:FOO (1 items)>")
  ∧ Urn.message (Urn.MissingVersion "<Codelist BAZ:FOO (1 items)>")
    = "Cannot construct URN for <Codelist BAZ:FOO (1 items)> without version"
  ∧ Urn.make Urn.PACKAGE_codelist Urn.repr_model false
      (Urn.code (Some Urn.cl_maintained))
    = Ok "urn:sdmx:org.sdmx.infomodel.codelist.Code=BAZ:FOO.BAR".
Proof.
  exact (make_without_version Urn.PACKAGE_codelist Urn.repr_model
           (Urn.code (Some Urn.cl_maintained)) Urn.cl_maintained
           (Urn.MkAgency "BAZ") eq_refl eq_refl eq_refl).
Defined.

(** C6. With [Code] and [Codelist] in the package [codelist], the code
    [BAR] of the code list [FOO], maintainer [BAZ], version [1.2.3], has
    the URN [urn:sdmx:org.sdmx.infomodel.codelist.Code=BAZ:FOO(1.2.3).BAR]
    and the code list has
    [urn:sdmx:org.sdmx.infomodel.codelist.Codelist=BAZ:FOO(1.2.3)], in
    strict mode and out of it. *)
Theorem make_codelist_example (PACKAGE : string → string)
    (repr : Urn.artefact → string) (strict : bool) :
  PACKAGE "Code" = "codelist" →
  PACKAGE "Codelist" = "codelist" →
  Urn.make PACKAGE repr strict (Urn.code (Some Urn.cl))
  = Ok "urn:sdmx:org.sdmx.infomodel.codelist.Code=BAZ:FOO(1.2.3).BAR"
  ∧ Urn.make PACKAGE repr strict (Urn.Maintainable Urn.cl)
    = Ok "urn:sdmx:org.sdmx.infomodel.codelist.Codelist=BAZ:FOO(1.2.3)".
Proof.
  intros HCode HCodelist. unfold Urn.make. simpl.
  rewrite HCode, HCodelist. by destruct strict.
Qed.

Lemma make_codelist_example_witness :
  Urn.make Urn.PACKAGE_codelist Urn.repr_model false (Urn.code (Some Urn.cl))
  = Ok "urn:sdmx:org.sdmx.infomodel.codelist.Code=BAZ:FOO(1.2.3).BAR"
  ∧ Urn.make Urn.PACKAGE_codelist Urn.repr_model false (Urn.Maintainable Urn.cl)
    = Ok "urn:sdmx:org.sdmx.infomodel.codelist.Codelist=BAZ:FOO(1.2.3)".
Proof.
  exact (make_codelist_example Urn.PACKAGE_codelist Urn.repr_model false
           eq_refl eq_refl).
Defined.

(** C7. A text that does not match the grammar is refused by [match]
    with the malformed-URN error that carries the text, whose message is
    [not a valid SDMX URN: ] and the text. The URN of the test, which has
    no class name after the package, does not match the grammar and is
    refused so. *)
Theorem urn_match_malformed :
  (∀ s : string,
     ¬ Urn.URN_grammar s →
     Urn.urn_match s = Raise (Urn.MalformedURN s)
     ∧ Urn.message (Urn.MalformedURN s) = "not a valid SDMX URN: " +:+ s)
  ∧ ¬ Urn.URN_grammar Urn.urn_without_class
  ∧ Urn.urn_match Urn.urn_without_class
    = Raise (Urn.MalformedURN Urn.urn_without_class)
  ∧ Urn.message (Urn.MalformedURN Urn.urn_without_class)
    = "not a valid SDMX URN: urn:sdmx:org.sdmx.infomodel.codelist=BBK:CLA_BBK_COLLECTION(1.0)".
Proof.
  split_and!; [| | done | done].
  - intros s Hs. split; [| done].
    destruct (urn_match_outcome s) as [[f Hf]|H]; [| done].
    destruct Hs. by apply (urn_match_Ok_grammar s f).
  - intros (r0 & package & r1 & H0 & H1 & H2)%URN_grammar_needs.
    vm_compute in H0. injection H0 as <-.
    vm_compute in H1. injection H1 as <- <-.
    vm_compute in H2. discriminate H2.
Qed.

Lemma urn_match_malformed_witness :
  ¬ Urn.URN_grammar "urn:sdmx:FOO"
  ∧ Urn.urn_match "urn:sdmx:FOO" = Raise (Urn.MalformedURN "urn:sdmx:FOO")
  ∧ Urn.message (Urn.MalformedURN "urn:sdmx:FOO")
    = "not a valid SDMX URN: urn:sdmx:FOO".
Proof.
  assert (¬ Urn.URN_grammar "urn:sdmx:FOO") as H.
  { intros (r0 & package & r1 & H0 & _)%URN_grammar_needs.
    vm_compute in H0. discriminate H0. }
  split; [exact H |].
  exact (proj1 urn_match_malformed "urn:sdmx:FOO" H).
Defined.

Section RoundTrip.
Import Urn.
Local Arguments String.append !_ _ / : simpl nomatch.






End RoundTrip.




(** The same holds of every function from URNs to fields: none gives back
    the fields of every object that [make] accepts in strict mode. *)
Lemma make_fields_not_recoverable
    (parse : string → result Urn.error Urn.fields) :
  ¬ (∀ (obj : Urn.artefact) (s : string),
       Urn.make Urn.PACKAGE_codelist Urn.repr_model true obj = Ok s →
       ∃ f, parse s = Ok f ∧ Urn.same_fields f obj).
Proof.
  intros H.
  destruct (H (Urn.Maintainable Urn.cl_agency_colon) _ eq_refl)
    as (fa & Ha & (? & ? & [= <-] & [= <-] & Haa & _)).
  destruct (H (Urn.Maintainable Urn.cl_id_colon) _ eq_refl)
    as (fb & Hb & (? & ? & [= <-] & [= <-] & Hbb & _)).
  vm_compute in Ha, Hb. rewrite Ha in Hb. injection Hb as <-.
  rewrite Haa in Hbb. discriminate Hbb.
Qed.

(** * Further properties *)

(** ** [qname] and the namespace table *)

Section SplitOn.
Local Arguments String.append !_ _ / : simpl nomatch.

Lemma split_on_nonempty (c : ascii) (s : string) : split_on c s ≠ [].
Proof.
  induction s as [|x s IH]; simpl; [done |].
  destruct (Ascii.eqb x c); [done |].
  by destruct (split_on c s).
Qed.

Lemma split_on_no_sep (c : ascii) (s : string) :
  occurs c s = false → split_on c s = [s].
Proof.
  induction s as [|x s IH]; simpl; [done |].
  intros [-> Hs]%orb_false_iff. by rewrite (IH Hs).
Qed.

Lemma split_on_sep (c : ascii) (a b : string) :
  occurs c a = false → split_on c (a +:+ String c b) = a :: split_on c b.
Proof.
  induction a as [|x a IH]; simpl.
  - by rewrite Ascii.eqb_refl.
  - intros [-> Ha]%orb_false_iff. by rewrite (IH Ha).
Qed.

(** The first part of a split holds no separator; either it is the whole
    string, or the string goes on with a separator and what gives the
    other parts. *)
Lemma split_on_cons (c : ascii) (s a : string) (rest : list string) :
  split_on c s = a :: rest →
  occurs c a = false
  ∧ (rest = [] ∧ s = a
     ∨ ∃ b, s = a +:+ String c b ∧ split_on c b = rest).
Proof.
  revert a rest. induction s as [|x s IH]; intros a rest; simpl.
  - intros [= <- <-]. split; [done | by left].
  - destruct (Ascii.eqb x c) eqn:E.
    + apply Ascii.eqb_eq in E as ->. intros [= <- <-].
      split; [done |]. right. by exists s.
    + destruct (split_on c s) as [|p ps] eqn:Hs.
      { by destruct (split_on_nonempty c s). }
      intros [= <- <-]. destruct (IH p ps eq_refl) as [Hp Hcase].
      split; [simpl; by rewrite E, Hp |].
      destruct Hcase as [[-> ->]|(b & -> & Hb)]; [by left |].
      right. by exists b.
Qed.

Lemma split_on_two (c : ascii) (s a b : string) :
  split_on c s = [a; b] ↔
  s = a +:+ String c b ∧ occurs c a = false ∧ occurs c b = false.
Proof.
  split.
  - intros H. destruct (split_on_cons _ _ _ _ H) as [Ha [[? _]|(b' & -> & Hb')]];
      [done |].
    destruct (split_on_cons _ _ _ _ Hb') as [Hb [[_ ->]|(b'' & _ & Hnil)]];
      [done |].
    by destruct (split_on_nonempty c b'').
  - intros (-> & Ha & Hb). by rewrite (split_on_sep _ _ _ Ha), (split_on_no_sep _ _ Hb).
Qed.

End SplitOn.

Section NamespaceTable.
Import Xml.

Lemma dict_get_Ok {V} (d : list (string * V)) (k : string) (v : V) :
  dict_get d k = Ok v → (k, v) ∈ d.
Proof.
  induction d as [|[k' v'] d IH]; simpl; [done |].
  destruct (String.eqb k' k) eqn:E.
  - apply String.eqb_eq in E as ->. intros [= ->]. left.
  - intros H. right. by apply IH.
Qed.

Lemma dict_get_elem {V} (d : list (string * V)) (k : string) :
  k ∈ d.*1 → ∃ v, dict_get d k = Ok v.
Proof.
  induction d as [|[k' v'] d IH]; simpl.
  - intros H. by apply elem_of_nil in H.
  - destruct (String.eqb k' k) eqn:E; [eauto |].
    apply String.eqb_neq in E. intros [->|H]%elem_of_cons; [done | eauto].
Qed.

Lemma dict_get_not_elem {V} (d : list (string * V)) (k : string) :
  k ∉ d.*1 → dict_get d k = Raise (KeyError k).
Proof.
  induction d as [|[k' v'] d IH]; simpl; [done |].
  intros [Hk Hd]%not_elem_of_cons.
  destruct (String.eqb k' k) eqn:E; [| by apply IH].
  apply String.eqb_eq in E. congruence.
Qed.

(** Every prefix but the empty one stands for a URI, and no URI of the
    table holds a closing brace. *)
Lemma NS_uri (ns : string) (v : option string) :
  dict_get NS ns = Ok v → ns ≠ "" →
  ∃ uri, v = Some uri ∧ occurs "}" uri = false.
Proof.
  intros Hin%dict_get_Ok Hns.
  assert (Forall (λ kv : string * option string,
                    kv.1 ≠ "" →
                    ∃ uri, kv.2 = Some uri ∧ occurs "}" uri = false) NS) as HF.
  { repeat constructor; simpl; intros; try done; by eexists. }
  rewrite Forall_forall in HF. exact (HF _ Hin Hns).
Qed.

Lemma NS_values_NoDup : NoDup NS.*2.
Proof. apply (bool_decide_unpack _). vm_compute. reflexivity. Qed.

Lemma NoDup_snd_inj {K V} (d : list (K * V)) (k1 k2 : K) (v : V) :
  NoDup d.*2 → (k1, v) ∈ d → (k2, v) ∈ d → k1 = k2.
Proof.
  induction d as [|[k' v'] d IH]; simpl.
  - intros _ H. by apply elem_of_nil in H.
  - intros [Hv Hd]%NoDup_cons H1%elem_of_cons H2%elem_of_cons.
    assert (∀ k, (k, v') ∈ d → False) as Hno.
    { intros k Hk. apply Hv. apply list_elem_of_fmap. by exists (k, v'). }
    destruct H1 as [H1|H1], H2 as [H2|H2]; simplify_eq; eauto.
    + by destruct (Hno k2).
    + by destruct (Hno k1).
Qed.

End NamespaceTable.

(** X1. A string [ns:name] given alone to [qname] is read as the prefix
    [ns] and the local name [name], when neither holds a colon: the result,
    a tag or the exception raised, is that of [qname(ns, name)]. *)
Theorem qname_one_argument (ns name : string) :
  occurs ":" ns = false →
  occurs ":" name = false →
  Xml.qname (Xml.OfStr (ns +:+ ":" +:+ name)) None
  = Xml.qname (Xml.OfStr ns) (Some name).
Proof.
  intros Hns Hname. unfold Xml.qname.
  assert (split_on ":" (ns +:+ ":" +:+ name) = [ns; name]) as ->; [| done].
  apply split_on_two. by split_and!.
Qed.

Lemma qname_one_argument_witness :
  Xml.qname (Xml.OfStr "str:Codelist") None
  = Xml.qname (Xml.OfStr "str") (Some "Codelist").
Proof. exact (qname_one_argument "str" "Codelist" eq_refl eq_refl). Defined.

Lemma split_on_length (c : ascii) (s : string) :
  length (split_on c s) = S (count_char c s).
Proof.
  induction s as [|x s IH]; simpl; [done |].
  destruct (Ascii.eqb x c); simpl; [by rewrite IH |].
  destruct (split_on c s); simpl in *; congruence.
Qed.

(** X2. [qname] of one string raises [ValueError] unless the string has
    exactly one colon. When it returns a tag, the string is [ns:name] for a
    prefix [ns] of the namespace table, and the tag is the one written
    [{NS[ns]}name]. *)
Theorem qname_one_argument_Ok (s : string) :
  (count_char ":" s ≠ 1 →
   ∃ msg, Xml.qname (Xml.OfStr s) None = Raise (ValueError msg))
  ∧ (∀ q,
       Xml.qname (Xml.OfStr s) None = Ok q →
       count_char ":" s = 1
       ∧ ∃ ns name uri,
           s = ns +:+ ":" +:+ name
           ∧ Xml.dict_get Xml.NS ns = Ok uri
           ∧ Xml.text q = Xml.text (Xml.MkQName uri name)).
Proof.
  pose proof (split_on_length ":" s) as Hlen.
  unfold Xml.qname. split.
  - intros Hcount.
    destruct (split_on ":" s) as [|ns [|name [|? ?]]] eqn:Hs;
      cbn [rbind fst snd]; eauto.
    simpl in Hlen. congruence.
  - intros q.
    destruct (split_on ":" s) as [|ns [|name [|? ?]]] eqn:Hs;
      cbn [rbind fst snd]; try done.
    apply split_on_two in Hs as (-> & _ & _).
    destruct (Xml.dict_get Xml.NS ns) as [uri|] eqn:Huri;
      cbn [rbind fst snd]; [| done].
    intros [= <-]. split; [simpl in Hlen; congruence |].
    by exists ns, name, uri.
Qed.

Lemma qname_one_argument_Ok_witness :
  ∃ msg, Xml.qname (Xml.OfStr "str:Code:list") None = Raise (ValueError msg).
Proof.
  apply (proj1 (qname_one_argument_Ok "str:Code:list")).
  vm_compute. discriminate.
Defined.

(** X3. [qname] raises [KeyError(ns)] for every prefix [ns] that is not a
    key of the namespace table, whatever the local name, given as
    [qname(ns, name)] or as [qname("ns:name")]; for a prefix of the table
    it never raises [KeyError]. *)
Theorem qname_prefix (ns name : string) :
  (ns ∉ Xml.NS.*1 →
   Xml.qname (Xml.OfStr ns) (Some name) = Raise (KeyError ns)
   ∧ (occurs ":" ns = false → occurs ":" name = false →
      Xml.qname (Xml.OfStr (ns +:+ ":" +:+ name)) None = Raise (KeyError ns)))
  ∧ (ns ∈ Xml.NS.*1 →
     ∀ key, Xml.qname (Xml.OfStr ns) (Some name) ≠ Raise (KeyError key)).
Proof.
  split.
  - intros Hns.
    assert (Xml.qname (Xml.OfStr ns) (Some name) = Raise (KeyError ns)) as H.
    { unfold Xml.qname. cbn [rbind fst snd].
      by rewrite (dict_get_not_elem _ _ Hns). }
    split; [done |]. intros Hc Hn.
    assert (split_on ":" (ns +:+ ":" +:+ name) = [ns; name]) as Hs.
    { apply split_on_two. by split_and!. }
    unfold Xml.qname in *. rewrite Hs. exact H.
  - intros [uri Huri]%dict_get_elem key.
    unfold Xml.qname. cbn [rbind fst snd]. by rewrite Huri.
Qed.

Lemma qname_prefix_witness :
  Xml.qname (Xml.OfStr "structure") (Some "Code") = Raise (KeyError "structure")
  ∧ Xml.qname (Xml.OfStr "structure:Code") None = Raise (KeyError "structure")
  ∧ Xml.qname (Xml.OfStr "footer") (Some "Message") ≠ Raise (KeyError "footer").
Proof.
  assert ("structure" ∉ Xml.NS.*1) as Hout.
  { apply (bool_decide_unpack _). vm_compute. reflexivity. }
  assert ("footer" ∈ Xml.NS.*1) as Hin.
  { apply (bool_decide_unpack _). vm_compute. reflexivity. }
  destruct (proj1 (qname_prefix "structure" "Code") Hout) as [H1 H2].
  split_and!.
  - exact H1.
  - exact (H2 eq_refl eq_refl).
  - exact (proj2 (qname_prefix "footer" "Message") Hin "footer").
Defined.

(** X4. Two tags that [qname] makes from non-empty prefixes compare equal
    only when the prefixes are the same and the local names are the same:
    no two prefixes share a namespace, and no namespace runs into a local
    name. *)
Theorem qname_injective (ns1 name1 ns2 name2 : string) (q1 q2 : Xml.QName) :
  Xml.qname (Xml.OfStr ns1) (Some name1) = Ok q1 →
  Xml.qname (Xml.OfStr ns2) (Some name2) = Ok q2 →
  ns1 ≠ "" →
  ns2 ≠ "" →
  Xml.QName_eqb q1 q2 = true →
  ns1 = ns2 ∧ name1 = name2.
Proof.
  unfold Xml.qname. cbn [rbind fst snd].
  destruct (Xml.dict_get Xml.NS ns1) as [v1|] eqn:H1; cbn [rbind]; [| done].
  destruct (Xml.dict_get Xml.NS ns2) as [v2|] eqn:H2; cbn [rbind]; [| done].
  intros [= <-] [= <-] Hns1 Hns2 Heq%String.eqb_eq.
  destruct (NS_uri _ _ H1 Hns1) as (u1 & -> & Hu1).
  destruct (NS_uri _ _ H2 Hns2) as (u2 & -> & Hu2).
  assert (u1 +:+ String "}" name1 = u2 +:+ String "}" name2) as Heq'.
  { unfold Xml.text in Heq. simpl in Heq. by injection Heq. }
  assert (Urn.split_first "}" (u1 +:+ String "}" name1) = Some (u1, name1))
    as Hs1 by by apply split_first_app.
  assert (Urn.split_first "}" (u2 +:+ String "}" name2) = Some (u2, name2))
    as Hs2 by by apply split_first_app.
  rewrite Heq', Hs2 in Hs1. injection Hs1 as <- <-.
  split; [| done].
  apply dict_get_Ok in H1, H2.
  exact (NoDup_snd_inj _ _ _ _ NS_values_NoDup H1 H2).
Qed.

Lemma qname_injective_witness :
  ∃ q, Xml.qname (Xml.OfStr "mes") (Some "Structure") = Ok q
       ∧ ("mes" = "mes" ∧ "Structure" = "Structure").
Proof.
  eexists. split; [reflexivity |].
  exact (qname_injective "mes" "Structure" "mes" "Structure" _ _
           eq_refl eq_refl ltac:(discriminate) ltac:(discriminate) eq_refl).
Defined.

(** ** [class_for_tag] *)

Section ClassForTag.
Import Xml.

Variable table : list (pyclass * QName).

Lemma class_for_tag_in_Some (t : QName) (cls : pyclass) :
  class_for_tag_in table t = Some cls →
  ∃ t', (cls, t') ∈ table ∧ text t' = text t.
Proof.
  unfold class_for_tag_in. induction table as [|[c q] l IH]; simpl; [done |].
  destruct (QName_eqb q t) eqn:E; simpl.
  - apply String.eqb_eq in E. intros [= ->]. exists q. split; [left | done].
  - intros (t' & Hin & Ht')%IH. exists t'. split; [by right | done].
Qed.

Lemma class_for_tag_in_None (t : QName) :
  class_for_tag_in table t = None ↔ text t ∉ (text ∘ snd) <$> table.
Proof.
  unfold class_for_tag_in. induction table as [|[c q] l IH]; simpl.
  - split; [intros _; apply not_elem_of_nil | done].
  - rewrite not_elem_of_cons.
    destruct (QName_eqb q t) eqn:E; simpl.
    + apply String.eqb_eq in E. split; [done | intros [H _]; congruence].
    + apply String.eqb_neq in E. rewrite IH. split; [| by intros [_ ?]].
      intros H. split; [congruence | done].
Qed.

End ClassForTag.

(** X5. Every entry of [_CLS_TAG] is found by its tag: [class_for_tag] of
    the tag of an entry is the class of that entry, also for the tags that
    are not the first of their class ([mes:Sender] gives [Agency]). *)
Theorem class_for_tag_entry (cls : Xml.pyclass) (t : Xml.QName) :
  (cls, t) ∈ Xml._CLS_TAG → Xml.class_for_tag t = Some cls.
Proof. apply class_for_tag_in_entry, _CLS_TAG_tags_NoDup. Qed.

Lemma class_for_tag_entry_witness :
  Xml.class_for_tag (Xml.mes_tag "Sender") = Some Xml.model_Agency.
Proof.
  apply (class_for_tag_entry Xml.model_Agency (Xml.mes_tag "Sender")).
  apply (list_elem_of_lookup_2 _ 8). reflexivity.
Defined.

(** X6. [class_for_tag] returns [None] exactly for the tags that
    compare equal to the tag of no entry of [_CLS_TAG]. *)
Theorem class_for_tag_not_found (t : Xml.QName) :
  Xml.class_for_tag t = None ↔
  Xml.text t ∉ (Xml.text ∘ snd) <$> Xml._CLS_TAG.
Proof. apply class_for_tag_in_None. Qed.

(** X7. The class of a tag has a tag of its own, which leads back to the
    class: when [class_for_tag(t)] is a class [cls], [tag_for_class(cls)]
    is a tag and [class_for_tag] of it is [cls] again. *)
Theorem tag_for_class_class_for_tag (t : Xml.QName) (cls : Xml.pyclass) :
  Xml.class_for_tag t = Some cls →
  ∃ t', Xml.tag_for_class cls = Some t' ∧ Xml.class_for_tag t' = Some cls.
Proof.
  unfold Xml.class_for_tag, Xml.tag_for_class. intros H.
  apply class_for_tag_in_Some in H as (t0 & Hin & _).
  destruct (first_entry Xml._CLS_TAG cls) as (pre & t' & post & Heq & Hpre).
  { apply list_elem_of_fmap. by exists (cls, t0). }
  exists t'. split.
  - by apply (tag_for_class_in_first _ cls pre t' post).
  - apply class_for_tag_in_entry; [apply _CLS_TAG_tags_NoDup |].
    rewrite Heq. apply elem_of_app. right. left.
Qed.

Lemma tag_for_class_class_for_tag_witness :
  ∃ t', Xml.tag_for_class Xml.model_Dimension = Some t'
        ∧ Xml.class_for_tag t' = Some Xml.model_Dimension.
Proof.
  exact (tag_for_class_class_for_tag (Xml.str_tag "GroupDimension")
           Xml.model_Dimension eq_refl).
Defined.

(** ** [Source] *)

Section SourceInit.
Import Source.

Lemma BaseModel_init_Ok (cls : SourceClass) (kwargs : info) (self : Source) :
  BaseModel_init cls kwargs = Ok self →
  src_class self = cls
  ∧ info_id kwargs = Some (id self)
  ∧ info_url kwargs = Some (url self)
  ∧ info_name kwargs = Some (name self)
  ∧ _validate_id cls (id self) = Ok (id self)
  ∧ headers self = default ∅ (info_headers kwargs)
  ∧ match info_data_content_type kwargs with
    | None => data_content_type self = XML
    | Some v => _validate_dct v = Ok (data_content_type self)
    end
  ∧ supports self = supports_default.
Proof.
  unfold BaseModel_init, required.
  destruct (info_id kwargs) as [i|]; cbn [rbind]; [| done].
  destruct (_validate_id cls i) as [i'|] eqn:Hi; cbn [rbind]; [| done].
  assert (i' = i) as ->.
  { unfold _validate_id in Hi. by case_match; simplify_eq. }
  destruct (info_url kwargs) as [u|]; cbn [rbind]; [| done].
  destruct (info_name kwargs) as [n|]; cbn [rbind]; [| done].
  destruct (info_data_content_type kwargs) as [v|].
  - destruct (_validate_dct v) as [d|] eqn:Hd; cbn [rbind]; [| done].
    by intros [= <-].
  - cbn [rbind]. by intros [= <-].
Qed.

Lemma Source_init_Ok (R : list string) (cls : SourceClass) (kwargs : info)
    (src : Source) :
  Source_init R cls kwargs = Ok src →
  ∃ self, BaseModel_init cls kwargs = Ok self
          ∧ src_class src = src_class self
          ∧ id src = id self ∧ url src = url self ∧ name src = name self
          ∧ headers src = headers self
          ∧ data_content_type src = data_content_type self.
Proof.
  unfold Source_init.
  destruct (BaseModel_init cls kwargs) as [self|]; cbn [rbind]; [| done].
  intros [= <-]. by exists self.
Qed.

End SourceInit.

(** X8. What the [supports] argument says about a feature is what the
    source reports, whatever the class-level default and the content
    type. *)
Theorem supports_specified (R : list string) (cls : Source.SourceClass)
    (kwargs : Source.info) (src : Source.Source) (m : gmap string bool)
    (feature : string) (b : bool) :
  Source.Source_init R cls kwargs = Ok src →
  Source.info_supports kwargs = Some m →
  m !! feature = Some b →
  Source.supports src !! feature = Some b.
Proof.
  intros Hinit Hm Hb.
  rewrite (Source_init_supports _ _ _ _ Hinit), setdefault_loop_lookup.
  unfold Source.dict_update. rewrite Hm. simpl.
  by rewrite (lookup_union_Some_l _ _ _ _ Hb).
Qed.

Lemma supports_specified_witness :
  ∃ src,
    Source.Source_init (Source.Resource Source.small_env) Source.Source_class
      Source.docstring_info = Ok src
    ∧ Source.supports src !! "codelist" = Some false.
Proof.
  eexists. split; [reflexivity |].
  refine (supports_specified (Source.Resource Source.small_env)
            Source.Source_class Source.docstring_info _ _ "codelist" false
            eq_refl eq_refl _).
  vm_compute. reflexivity.
Defined.

(** X9. The features that a source has an entry for in [supports] are
    the members of [Resource], [preview] and [structure-specific data],
    the keys of the class-level default, and the keys of the [supports]
    argument, and no other. *)
Theorem supports_keys (R : list string) (cls : Source.SourceClass)
    (kwargs : Source.info) (src : Source.Source) (feature : string) :
  Source.Source_init R cls kwargs = Ok src →
  is_Some (Source.supports src !! feature) ↔
  feature ∈ Source.features R
  ∨ is_Some (Source.supports_default !! feature)
  ∨ is_Some (default ∅ (Source.info_supports kwargs) !! feature).
Proof.
  intros Hinit.
  rewrite (Source_init_supports _ _ _ _ Hinit), setdefault_loop_lookup.
  unfold Source.dict_update. rewrite lookup_union.
  destruct (default ∅ (Source.info_supports kwargs) !! feature) as [b|],
    (Source.supports_default !! feature) as [b'|]; simpl.
  1-3: split; [intros _ | eauto]; eauto.
  case_bool_decide.
  - split; [by left | eauto].
  - split; [by intros [? ?] |].
    intros [?|[[? ?]|[? ?]]]; done.
Qed.

Lemma supports_keys_witness :
  ∃ src,
    Source.Source_init (Source.Resource Source.small_env) Source.Source_class
      Source.docstring_info = Ok src
    ∧ is_Some (Source.supports src !! "structure-specific data")
    ∧ ¬ is_Some (Source.supports src !! "structure").
Proof.
  eexists. split; [reflexivity |]. split.
  - apply (proj2 (supports_keys (Source.Resource Source.small_env)
                    Source.Source_class Source.docstring_info _
                    "structure-specific data" eq_refl)).
    left. apply (bool_decide_unpack _). vm_compute. reflexivity.
  - intros H.
    apply (proj1 (supports_keys (Source.Resource Source.small_env)
                    Source.Source_class Source.docstring_info _
                    "structure" eq_refl)) in H.
    destruct H as [H|[H|H]].
    + apply (bool_decide_pack _) in H. vm_compute in H. exact H.
    + vm_compute in H. by destruct H.
    + vm_compute in H. by destruct H.
Defined.

Lemma _validate_dct_Ok (s : string) (d : Source.DataContentType) :
  Source._validate_dct (Source.DctName s) = Ok d →
  (s = "XML" ∧ d = Source.XML) ∨ (s = "JSON" ∧ d = Source.JSON).
Proof.
  assert (s = "XML" ∨ s = "JSON"
          ∨ Source._validate_dct (Source.DctName s) = Raise (KeyError s))
    as Hcases.
  { unfold Source._validate_dct. repeat (case_match; subst; auto). }
  destruct Hcases as [-> | [-> | ->] ]; [| | done]; intros [= <-]; auto.
Qed.

(** X10. A source whose content type is given by name is built only for
    the names [XML] and [JSON], written so. It then has the content type
    of that name, and a feature that neither the [supports] argument nor
    the class-level default mentions is supported for [XML] and
    unsupported for [JSON]. *)
Theorem Source_init_content_type_name (R : list string)
    (cls : Source.SourceClass) (kwargs : Source.info) (src : Source.Source)
    (s : string) :
  Source.info_data_content_type kwargs = Some (Source.DctName s) →
  Source.Source_init R cls kwargs = Ok src →
  (s = "XML" ∨ s = "JSON")
  ∧ Source.data_content_type src
    = (if String.eqb s "XML" then Source.XML else Source.JSON)
  ∧ ∀ feature,
      feature ∈ Source.features R →
      default ∅ (Source.info_supports kwargs) !! feature = None →
      Source.supports_default !! feature = None →
      Source.supports src !! feature = Some (String.eqb s "XML").
Proof.
  intros Hname Hinit.
  pose proof (Source_init_supports _ _ _ _ Hinit) as Hsupports.
  apply Source_init_Ok in Hinit as (self & Hself & _ & _ & _ & _ & _ & Hd).
  apply BaseModel_init_Ok in Hself as (_ & _ & _ & _ & _ & _ & Hdct & _).
  rewrite Hname, <- Hd in Hdct.
  assert (Source.data_content_type src
          = (if String.eqb s "XML" then Source.XML else Source.JSON)
          ∧ (s = "XML" ∨ s = "JSON")) as [Hsrc Hs].
  { destruct (_validate_dct_Ok _ _ Hdct) as [ [-> ->] | [-> ->] ]; auto. }
  split_and!; [done | done |].
  intros feature Hin Harg Hdef.
  rewrite Hsupports, setdefault_loop_lookup.
  unfold Source.dict_update. rewrite lookup_union, Harg, Hdef. simpl.
  rewrite bool_decide_eq_true_2 by done. rewrite Hsrc.
  by destruct (String.eqb s "XML").
Qed.

Lemma Source_init_content_type_name_witness :
  ∃ src,
    Source.Source_init (Source.Resource Source.small_env) Source.Source_class
      Source.json_info = Ok src
    ∧ Source.data_content_type src = Source.JSON
    ∧ Source.supports src !! "dataflow" = Some false
    ∧ Source.supports src !! "data" = Some true.
Proof.
  eexists. split; [reflexivity |].
  destruct (Source_init_content_type_name (Source.Resource Source.small_env)
              Source.Source_class Source.json_info _ "JSON" eq_refl eq_refl)
    as (_ & Hd & Hf).
  split_and!.
  - exact Hd.
  - apply (Hf "dataflow").
    + apply (bool_decide_unpack _). vm_compute. reflexivity.
    + reflexivity.
    + vm_compute. reflexivity.
  - vm_compute. reflexivity.
Defined.



(** X12. A class that fixes [_id] refuses any other id: building a
    source with an id that differs raises, whatever the other arguments. *)
Theorem Source_init_fixed_id (R : list string) (cls : Source.SourceClass)
    (kwargs : Source.info) (fixed given : string) :
  Source._id cls = Some fixed →
  Source.info_id kwargs = Some given →
  given ≠ fixed →
  Source._validate_id cls given = Raise AssertionError
  ∧ ∃ e, Source.Source_init R cls kwargs = Raise e.
Proof.
  intros Hfixed Hgiven Hne.
  assert (Source._validate_id cls given = Raise AssertionError) as Hv.
  { unfold Source._validate_id. rewrite Hfixed. simpl.
    assert (String.eqb fixed given = false) as ->; [| done].
    apply String.eqb_neq. congruence. }
  split; [done |]. exists AssertionError.
  unfold Source.Source_init, Source.BaseModel_init.
  rewrite Hgiven. simpl. by rewrite Hv.
Qed.

Lemma Source_init_fixed_id_witness :
  ∃ e,
    Source.Source_init (Source.Resource Source.small_env)
      (Source.MkSourceClass (Some "estat") (Some "ESTAT"))
      (Source.MkInfo (Some "ECB") (Some "http://x") (Some "X") None None None)
    = Raise e.
Proof.
  exact (proj2 (Source_init_fixed_id (Source.Resource Source.small_env)
                  (Source.MkSourceClass (Some "estat") (Some "ESTAT"))
                  (Source.MkInfo (Some "ECB") (Some "http://x") (Some "X")
                     None None None)
                  "ESTAT" "ECB" eq_refl eq_refl ltac:(discriminate))).
Defined.

(** ** [Source.modify_request_args] *)

(** X13. [modify_request_args] changes nothing unless the source is XML
    and [dsd] is a [DataStructureDefinition]; then it leaves [dsd] and the
    other arguments, and [headers] has an [Accept] entry: the one the
    caller gave, or else the structure-specific media type. *)
Theorem modify_request_args_Accept (self : Source.Source)
    (kwargs : Source.request_args) :
  (Source.data_content_type self ≠ Source.XML
   ∨ (∀ id, Source.arg_dsd kwargs ≠ Some (Source.DsdInstance id)) →
   Source.modify_request_args self kwargs = kwargs)
  ∧ (∀ id,
       Source.data_content_type self = Source.XML →
       Source.arg_dsd kwargs = Some (Source.DsdInstance id) →
       ∃ headers,
         Source.modify_request_args self kwargs
         = Source.MkArgs (Source.arg_dsd kwargs) (Some headers)
             (Source.arg_rest kwargs)
         ∧ headers !! "Accept"
           = Some (default Source.structurespecific_accept
                     (Source.arg_headers kwargs ≫= (.!! "Accept")))).
Proof.
  unfold Source.modify_request_args. split.
  - intros [Hx|Hd].
    + by destruct (Source.data_content_type self).
    + destruct (Source.data_content_type self); [| done]. simpl.
      destruct (Source.arg_dsd kwargs) as [[id|]|]; [| done..].
      by destruct (Hd id).
  - intros id -> ->. simpl. eexists. split; [done |].
    rewrite setdefault_lookup.
    destruct (Source.arg_headers kwargs) as [h|]; simpl.
    + by destruct (h !! "Accept").
    + by rewrite lookup_empty.
Qed.

Lemma modify_request_args_Accept_witness :
  Source.modify_request_args Source.old_source
    (Source.MkArgs (Some (Source.DsdInstance "DSD")) None ∅)
  = Source.MkArgs (Some (Source.DsdInstance "DSD")) None ∅.
Proof.
  apply (proj1 (modify_request_args_Accept Source.old_source
                  (Source.MkArgs (Some (Source.DsdInstance "DSD")) None ∅))).
  left. discriminate.
Defined.

(** X14. [modify_request_args] never removes or changes a header that
    the caller gave. *)
Theorem modify_request_args_keeps_headers (self : Source.Source)
    (kwargs : Source.request_args) (h : gmap string string)
    (key value : string) :
  Source.arg_headers kwargs = Some h →
  h !! key = Some value →
  ∃ h', Source.arg_headers (Source.modify_request_args self kwargs) = Some h'
        ∧ h' !! key = Some value.
Proof.
  intros Hh Hkey. unfold Source.modify_request_args.
  destruct (Source.DataContentType_eqb _ _); [| by exists h].
  destruct (Source.arg_dsd kwargs) as [[id|]|]; [| by exists h..].
  simpl. eexists. split; [done |].
  rewrite setdefault_lookup, Hh. simpl. by rewrite Hkey.
Qed.

Lemma modify_request_args_keeps_headers_witness :
  ∃ h',
    Source.arg_headers
      (Source.modify_request_args
         (Source.MkSource Source.Source_class "X" "" "" ∅ Source.XML ∅)
         (Source.MkArgs (Some (Source.DsdInstance "DSD"))
            (Some {["Accept" := "text/csv"]}) ∅))
    = Some h'
    ∧ h' !! "Accept" = Some "text/csv".
Proof.
  exact (modify_request_args_keeps_headers
           (Source.MkSource Source.Source_class "X" "" "" ∅ Source.XML ∅)
           (Source.MkArgs (Some (Source.DsdInstance "DSD"))
              (Some {["Accept" := "text/csv"]}) ∅)
           {["Accept" := "text/csv"]} "Accept" "text/csv" eq_refl eq_refl).
Defined.

(** X15. Calling [modify_request_args] a second time changes nothing. *)
Theorem modify_request_args_idempotent (self : Source.Source)
    (kwargs : Source.request_args) :
  Source.modify_request_args self (Source.modify_request_args self kwargs)
  = Source.modify_request_args self kwargs.
Proof.
  unfold Source.modify_request_args.
  destruct (Source.DataContentType_eqb _ _); [| done].
  destruct (Source.arg_dsd kwargs) as [[id|]|] eqn:Hd; simpl;
    rewrite ?Hd; try done.
  f_equal. f_equal. unfold Source.setdefault.
  destruct (default ∅ (Source.arg_headers kwargs) !! "Accept") as [a|] eqn:Ha.
  - by rewrite Ha.
  - by rewrite lookup_insert_eq.
Qed.

(** ** The source registry: [add_source], [list_sources],
    [load_package_sources] *)

Section Registry.
Import Source.

(** The two ways [add_source] ends: an exception and the registry as it
    was, or the new source stored under its key, which was free unless
    [override] was given. *)
Lemma add_source_cases (env : Env) info id override kwargs (sources : registry) :
  (∃ e, add_source env info id override kwargs sources = (Raise e, sources))
  ∨ (∃ _info key s,
       load env info = Ok _info
       ∧ id_or id _info = Ok key
       ∧ (override = true ∨ sources !! key = None)
       ∧ from_dict (Resource env) (find_class env key)
           (info_update _info kwargs) = Ok s
       ∧ add_source env info id override kwargs sources
         = (Ok (), <[key := s]> sources)).
Proof.
  rewrite add_source_run.
  destruct (load env info) as [_info|e]; [| left; eauto].
  destruct (id_or id _info) as [key|e] eqn:Hid; [| left; eauto].
  destruct override; simpl.
  - destruct (from_dict _ _ _) as [s|e] eqn:Hs; [| left; eauto].
    right. exists _info, key, s. split_and!; [done | done | by left | done..].
  - case_bool_decide as Hk; simpl; [left; eauto |].
    destruct (from_dict _ _ _) as [s|e] eqn:Hs; [| left; eauto].
    right. exists _info, key, s. split_and!; [done | done | | done..].
    right. by apply eq_None_not_Some.
Qed.

Lemma load_package_sources_cons (env : Env) info rest (sources : registry) :
  load_package_sources env (info :: rest) sources
  = match add_source env (InfoDict info) None false no_kwargs sources with
    | (Ok _, sources') => load_package_sources env rest sources'
    | (Raise e, sources') => (Raise e, sources')
    end.
Proof. reflexivity. Qed.

Lemma id_or_None (_info : info) (key : string) :
  id_or None _info = Ok key → info_id _info = Some key.
Proof.
  unfold id_or, getitem_id. by destruct (info_id _info); intros [= <-].
Qed.

Lemma add_source_false_subseteq (env : Env) info id kwargs (sources : registry) :
  sources ⊆ (add_source env info id false kwargs sources).2.
Proof.
  destruct (add_source_cases env info id false kwargs sources)
    as [[e ->]|(_info & key & s & _ & _ & [?|Hfree] & _ & ->)]; [done.. |].
  by apply insert_subseteq.
Qed.

Lemma load_package_sources_subseteq (env : Env) catalogue (sources : registry) :
  sources ⊆ (load_package_sources env catalogue sources).2.
Proof.
  revert sources. induction catalogue as [|info rest IH]; intros sources.
  - done.
  - rewrite load_package_sources_cons.
    pose proof (add_source_false_subseteq env (InfoDict info) None no_kwargs
                  sources) as Hstep.
    destruct (add_source env (InfoDict info) None false no_kwargs sources)
      as [[[]|e] sources1]; simpl in *; [| done].
    by etrans; [| apply IH].
Qed.

(** An entry whose id is taken stops the loading of the catalogue. *)
Lemma load_package_sources_taken (env : Env) catalogue (sources : registry)
    (key : string) :
  Some key ∈ info_id <$> catalogue →
  is_Some (sources !! key) →
  ∃ e sources', load_package_sources env catalogue sources = (Raise e, sources').
Proof.
  revert sources. induction catalogue as [|info rest IH]; intros sources.
  - intros Hin. by apply elem_of_nil in Hin.
  - rewrite fmap_cons, load_package_sources_cons.
    intros Hin [old Hold].
    destruct (add_source_cases env (InfoDict info) None false no_kwargs sources)
      as [[e ->]|(_info & key' & s & [= <-] & Hkey & [?|Hfree] & _ & ->)];
      [eauto | done |].
    apply id_or_None in Hkey.
    apply elem_of_cons in Hin as [Hhere|Hin]; [congruence |].
    apply IH; [done |].
    destruct (decide (key' = key)) as [->|Hne].
    + rewrite lookup_insert_eq. eauto.
    + rewrite lookup_insert_ne by done. eauto.
Qed.

Lemma list_sources_elem (sources : registry) (id : string) :
  id ∈ merge_sort String.le (map_to_list sources).*1 ↔ is_Some (sources !! id).
Proof.
  rewrite merge_sort_Permutation, list_elem_of_fmap. split.
  - intros ([k s] & -> & Hin). apply elem_of_map_to_list in Hin. eauto.
  - intros [s Hs]. exists (id, s). split; [done |].
    by apply elem_of_map_to_list.
Qed.

End Registry.

(** X16. [list_sources] returns the ids of the registry, each once, in
    increasing order, and leaves the registry as it is. *)
Theorem list_sources_sorted (sources : gmap string Source.Source) :
  ∃ l,
    Source.list_sources sources = (Ok l, sources)
    ∧ StronglySorted String.le l
    ∧ NoDup l
    ∧ ∀ id, id ∈ l ↔ is_Some (sources !! id).
Proof.
  eexists. split; [reflexivity |].
  split_and!.
  - apply StronglySorted_merge_sort; apply _.
  - rewrite merge_sort_Permutation. apply NoDup_fst_map_to_list.
  - apply list_sources_elem.
Qed.

(** X17. [add_source] touches no entry but the one of the id it
    registers: every other id has after the call what it had before,
    whether the call succeeds or raises, with or without [override]. *)
Theorem add_source_other_ids (env : Source.Env) (info : Source.info_arg)
    (id : option string) (override : bool) (kwargs : Source.info)
    (sources : gmap string Source.Source) (k : string) :
  (∀ _info, Source.load env info = Ok _info →
            Source.id_or id _info ≠ Ok k) →
  (Source.add_source env info id override kwargs sources).2 !! k
  = sources !! k.
Proof.
  intros Hk.
  destruct (add_source_cases env info id override kwargs sources)
    as [[e ->]|(_info & key & s & Hload & Hid & _ & _ & ->)]; [done |].
  simpl. apply lookup_insert_ne. intros ->. by apply (Hk _info).
Qed.

Lemma add_source_other_ids_witness :
  (Source.add_source Source.small_env (Source.InfoDict Source.docstring_info)
     (Some "ECB") true Source.no_kwargs Source.old_sources).2 !! "ESTAT"
  = Some Source.old_source.
Proof.
  refine (add_source_other_ids Source.small_env
            (Source.InfoDict Source.docstring_info) (Some "ECB") true
            Source.no_kwargs Source.old_sources "ESTAT" _).
  intros _info _. discriminate.
Defined.

(** X18. Without [override], [add_source] never replaces or removes an
    entry: what the registry holds for an id before the call, it holds
    after it. *)
Theorem add_source_keeps_entries (env : Source.Env) (info : Source.info_arg)
    (id : option string) (kwargs : Source.info)
    (sources : gmap string Source.Source) (k : string) (s : Source.Source) :
  sources !! k = Some s →
  (Source.add_source env info id false kwargs sources).2 !! k = Some s.
Proof.
  intros Hk.
  eapply lookup_weaken; [exact Hk |].
  apply add_source_false_subseteq.
Qed.

Lemma add_source_keeps_entries_witness :
  (Source.add_source Source.small_env (Source.InfoDict Source.docstring_info)
     None false Source.no_kwargs Source.old_sources).2 !! "ESTAT"
  = Some Source.old_source.
Proof.
  exact (add_source_keeps_entries Source.small_env
           (Source.InfoDict Source.docstring_info) None Source.no_kwargs
           Source.old_sources "ESTAT" Source.old_source eq_refl).
Defined.

(** X19. Whatever exception [add_source] raises (the JSON text does not
    decode, there is no id, a field does not validate, the id is taken),
    the registry is as it was. *)
Theorem add_source_raises_registry_unchanged (env : Source.Env)
    (info : Source.info_arg) (id : option string) (override : bool)
    (kwargs : Source.info) (sources : gmap string Source.Source) (e : exn) :
  (Source.add_source env info id override kwargs sources).1 = Raise e →
  (Source.add_source env info id override kwargs sources).2 = sources.
Proof.
  destruct (Source.add_source env info id override kwargs sources)
    as [r sources'] eqn:E.
  simpl. intros ->. by eapply add_source_raise_unchanged.
Qed.

Lemma add_source_raises_registry_unchanged_witness :
  (Source.add_source Source.small_env (Source.InfoStr "{") None true
     Source.no_kwargs Source.old_sources).2
  = Source.old_sources.
Proof.
  exact (add_source_raises_registry_unchanged Source.small_env
           (Source.InfoStr "{") None true Source.no_kwargs Source.old_sources
           (JSONDecodeError "{") eq_refl).
Defined.

(** X20. After [add_source] has succeeded, [list_sources] has the id it
    registered, and every id it had before. *)
Theorem add_source_then_list_sources (env : Source.Env)
    (info : Source.info_arg) (id : option string) (override : bool)
    (kwargs : Source.info) (sources sources' : gmap string Source.Source)
    (_info : Source.info) (key : string) (l : list string) :
  Source.load env info = Ok _info →
  Source.id_or id _info = Ok key →
  (Source.add_source env info id override kwargs
   ≫= λ _, Source.list_sources) sources = (Ok l, sources') →
  key ∈ l ∧ ∀ k, is_Some (sources !! k) → k ∈ l.
Proof.
  intros Hload Hid. unfold mbind, Source.M_bind.
  destruct (add_source_cases env info id override kwargs sources)
    as [[e ->]|(_info' & key' & s & Hload' & Hid' & _ & _ & ->)]; [done |].
  rewrite Hload in Hload'. injection Hload' as <-.
  rewrite Hid in Hid'. injection Hid' as <-. cbn beta iota.
  unfold Source.list_sources. intros [= <- <-]. split.
  - apply list_sources_elem. rewrite lookup_insert_eq. eauto.
  - intros k Hk. apply list_sources_elem.
    destruct (decide (key = k)) as [->|Hne].
    + rewrite lookup_insert_eq. eauto.
    + by rewrite lookup_insert_ne.
Qed.

Lemma add_source_then_list_sources_witness :
  ∃ l sources',
    (Source.add_source Source.small_env (Source.InfoDict Source.docstring_info)
       (Some "ECB") false Source.no_kwargs
     ≫= λ _, Source.list_sources) Source.old_sources = (Ok l, sources')
    ∧ "ECB" ∈ l ∧ "ESTAT" ∈ l.
Proof.
  assert ((Source.add_source Source.small_env
             (Source.InfoDict Source.docstring_info) (Some "ECB") false
             Source.no_kwargs
           ≫= λ _, Source.list_sources) Source.old_sources
          = (Ok (merge_sort String.le
                   (map_to_list
                      (Source.add_source Source.small_env
                         (Source.InfoDict Source.docstring_info) (Some "ECB")
                         false Source.no_kwargs Source.old_sources).2).*1),
             (Source.add_source Source.small_env
                (Source.InfoDict Source.docstring_info) (Some "ECB")
                false Source.no_kwargs Source.old_sources).2)) as Hrun.
  { reflexivity. }
  eexists _, _. split; [exact Hrun |].
  destruct (add_source_then_list_sources Source.small_env
              (Source.InfoDict Source.docstring_info) (Some "ECB") false
              Source.no_kwargs Source.old_sources _ Source.docstring_info
              "ECB" _ eq_refl eq_refl Hrun) as [Hkey Hold].
  split; [exact Hkey |].
  apply Hold. by exists Source.old_source.
Defined.

(** X21. Once [add_source] has succeeded for an id, a later call for
    the same id without [override] raises the duplicate-source error,
    whatever it would register, and the first source stays. *)
Theorem add_source_twice (env : Source.Env)
    (info info2 : Source.info_arg) (id id2 : option string) (override : bool)
    (kwargs kwargs2 : Source.info) (sources sources' : gmap string Source.Source)
    (_info _info2 : Source.info) (key : string) :
  Source.load env info = Ok _info →
  Source.id_or id _info = Ok key →
  Source.load env info2 = Ok _info2 →
  Source.id_or id2 _info2 = Ok key →
  Source.add_source env info id override kwargs sources = (Ok (), sources') →
  Source.add_source env info2 id2 false kwargs2 sources'
  = (Raise (Source.duplicate_error key), sources').
Proof.
  intros Hload Hid Hload2 Hid2 Hrun.
  destruct (add_source_cases env info id override kwargs sources)
    as [[e He]|(_info' & key' & s & Hload' & Hid' & _ & _ & Hrun')];
    [congruence |].
  rewrite Hload in Hload'. injection Hload' as <-.
  rewrite Hid in Hid'. injection Hid' as <-.
  rewrite Hrun in Hrun'. injection Hrun' as ->.
  rewrite add_source_run, Hload2, Hid2. simpl.
  rewrite bool_decide_eq_true_2; [done |].
  rewrite lookup_insert_eq. eauto.
Qed.

Lemma add_source_twice_witness :
  ∃ sources',
    Source.add_source Source.small_env (Source.InfoDict Source.docstring_info)
      None false Source.no_kwargs ∅ = (Ok (), sources')
    ∧ Source.add_source Source.small_env
        (Source.InfoDict Source.docstring_info) (Some "ESTAT") false
        Source.no_kwargs sources'
      = (Raise (Source.duplicate_error "ESTAT"), sources').
Proof.
  assert (Source.add_source Source.small_env
            (Source.InfoDict Source.docstring_info) None false
            Source.no_kwargs ∅
          = (Ok (), (Source.add_source Source.small_env
                       (Source.InfoDict Source.docstring_info) None false
                       Source.no_kwargs ∅).2)) as Hrun.
  { reflexivity. }
  eexists. split; [exact Hrun |].
  exact (add_source_twice Source.small_env
           (Source.InfoDict Source.docstring_info)
           (Source.InfoDict Source.docstring_info) None (Some "ESTAT") false
           Source.no_kwargs Source.no_kwargs ∅ _ Source.docstring_info
           Source.docstring_info "ESTAT" eq_refl eq_refl eq_refl eq_refl
           Hrun).
Defined.

(** X22. When [add_source] is given no id (or the empty string) and no
    keyword argument changes the id, the source it registers is stored
    under its own [id]. *)
Theorem add_source_stored_under_id (env : Source.Env)
    (info : Source.info_arg) (id : option string) (override : bool)
    (kwargs : Source.info) (sources sources' : gmap string Source.Source) :
  id = None ∨ id = Some "" →
  Source.info_id kwargs = None →
  Source.add_source env info id override kwargs sources = (Ok (), sources') →
  ∃ s, sources' = <[Source.id s := s]> sources.
Proof.
  intros Hid Hkw Hrun.
  destruct (add_source_cases env info id override kwargs sources)
    as [[e He]|(_info & key & s & _ & Hkey & _ & Hs & Hrun')];
    [congruence |].
  rewrite Hrun in Hrun'. injection Hrun' as ->.
  exists s. f_equal.
  assert (Source.info_id _info = Some key) as Hinfo.
  { apply id_or_None. by destruct Hid as [-> | ->]. }
  apply Source_init_Ok in Hs as (self & Hself & _ & Hs & _).
  apply BaseModel_init_Ok in Hself as (_ & Hself & _).
  unfold Source.info_update in Hself. simpl in Hself.
  rewrite Hkw, Hinfo in Hself. simpl in Hself. congruence.
Qed.

Lemma add_source_stored_under_id_witness :
  ∃ sources' s,
    Source.add_source Source.small_env (Source.InfoDict Source.docstring_info)
      None false Source.no_kwargs ∅ = (Ok (), sources')
    ∧ sources' = <[Source.id s := s]> ∅.
Proof.
  assert (Source.add_source Source.small_env
            (Source.InfoDict Source.docstring_info) None false
            Source.no_kwargs ∅
          = (Ok (), (Source.add_source Source.small_env
                       (Source.InfoDict Source.docstring_info) None false
                       Source.no_kwargs ∅).2)) as Hrun.
  { reflexivity. }
  eexists.
  destruct (add_source_stored_under_id Source.small_env
              (Source.InfoDict Source.docstring_info) None false
              Source.no_kwargs ∅ _ (or_introl eq_refl) eq_refl Hrun)
    as [s Hs].
  exists s. split; [exact Hrun | exact Hs].
Defined.

(** X23. [load_package_sources] never replaces or removes an entry of
    the registry, whether it loads the whole catalogue or raises on the
    way. *)
Theorem load_package_sources_keeps_entries (env : Source.Env)
    (catalogue : list Source.info) (sources : gmap string Source.Source)
    (k : string) (s : Source.Source) :
  sources !! k = Some s →
  (Source.load_package_sources env catalogue sources).2 !! k = Some s.
Proof.
  intros Hk.
  eapply lookup_weaken; [exact Hk |].
  apply load_package_sources_subseteq.
Qed.

Lemma load_package_sources_keeps_entries_witness :
  (Source.load_package_sources Source.small_env
     [Source.docstring_info; Source.docstring_info] Source.old_sources).2
  !! "ESTAT" = Some Source.old_source.
Proof.
  exact (load_package_sources_keeps_entries Source.small_env
           [Source.docstring_info; Source.docstring_info] Source.old_sources
           "ESTAT" Source.old_source eq_refl).
Defined.

(** X24. When [load_package_sources] loads a catalogue to the end, every
    entry of the catalogue has an id, no two entries have the same id,
    none of these ids was in the registry before, and all of them are in
    it after. *)
Theorem load_package_sources_Ok (env : Source.Env)
    (catalogue : list Source.info) (sources sources' : gmap string Source.Source) :
  Source.load_package_sources env catalogue sources = (Ok (), sources') →
  ∃ ids,
    Source.info_id <$> catalogue = Some <$> ids
    ∧ NoDup ids
    ∧ ∀ id, id ∈ ids → sources !! id = None ∧ is_Some (sources' !! id).
Proof.
  revert sources. induction catalogue as [|info rest IH]; intros sources.
  - intros _. exists []. split_and!; [done | constructor |].
    intros id Hid. by apply elem_of_nil in Hid.
  - rewrite load_package_sources_cons.
    destruct (add_source_cases env (Source.InfoDict info) None false
                Source.no_kwargs sources)
      as [[e ->]|(_info & key & s & [= <-] & Hkey & [?|Hfree] & _ & ->)];
      [done.. |].
    intros Hrest. destruct (IH _ Hrest) as (ids & Hids & Hnodup & Hall).
    apply id_or_None in Hkey.
    exists (key :: ids). split_and!.
    + by rewrite !fmap_cons, Hkey, Hids.
    + constructor; [| done]. intros Hin.
      destruct (Hall key Hin) as [Hnone _].
      by rewrite lookup_insert_eq in Hnone.
    + intros id [->|Hin]%elem_of_cons.
      * split; [done |].
        pose proof (load_package_sources_subseteq env rest
                      (<[key := s]> sources)) as Hsub.
        rewrite Hrest in Hsub. simpl in Hsub. exists s.
        eapply lookup_weaken; [apply lookup_insert_eq | exact Hsub].
      * destruct (Hall id Hin) as [Hnone Hsome]. split; [| done].
        destruct (decide (key = id)) as [->|Hne].
        -- by rewrite lookup_insert_eq in Hnone.
        -- by rewrite lookup_insert_ne in Hnone.
Qed.

Lemma load_package_sources_Ok_witness :
  ∃ sources' ids,
    Source.load_package_sources Source.small_env [Source.docstring_info] ∅
    = (Ok (), sources')
    ∧ Source.info_id <$> [Source.docstring_info] = Some <$> ids
    ∧ NoDup ids.
Proof.
  assert (Source.load_package_sources Source.small_env
            [Source.docstring_info] ∅
          = (Ok (), (Source.load_package_sources Source.small_env
                       [Source.docstring_info] ∅).2)) as Hrun.
  { reflexivity. }
  eexists.
  destruct (load_package_sources_Ok Source.small_env [Source.docstring_info]
              ∅ _ Hrun) as (ids & Hids & Hnodup & _).
  exists ids. split; [exact Hrun |]. by split.
Defined.

(** X25. Loading a catalogue is loading its entries one after the
    other: when the first part loads, the rest is loaded on the registry
    that the first part leaves; when the first part raises, that
    exception is the outcome, with the entries loaded until then. *)
Theorem load_package_sources_app (env : Source.Env)
    (first rest : list Source.info) (sources : gmap string Source.Source) :
  Source.load_package_sources env (first ++ rest) sources
  = match Source.load_package_sources env first sources with
    | (Ok _, sources') => Source.load_package_sources env rest sources'
    | (Raise e, sources') => (Raise e, sources')
    end.
Proof.
  revert sources. induction first as [|info first IH]; intros sources.
  - done.
  - simpl app. rewrite !load_package_sources_cons.
    destruct (Source.add_source env (Source.InfoDict info) None false
                Source.no_kwargs sources) as [[[]|e] sources1]; [| done].
    apply IH.
Qed.

(** X26. A catalogue in which an id comes twice is never loaded to the
    end: [load_package_sources] raises, and the registry keeps the first
    entry of that id. *)
Theorem load_package_sources_duplicate (env : Source.Env)
    (catalogue : list Source.info) (sources : gmap string Source.Source) :
  ¬ NoDup (Source.info_id <$> catalogue) →
  ∃ e sources',
    Source.load_package_sources env catalogue sources = (Raise e, sources').
Proof.
  revert sources. induction catalogue as [|info rest IH]; intros sources Hdup.
  - destruct Hdup. constructor.
  - rewrite load_package_sources_cons.
    destruct (add_source_cases env (Source.InfoDict info) None false
                Source.no_kwargs sources)
      as [[e ->]|(_info & key & s & [= <-] & Hkey & _ & _ & ->)]; [eauto |].
    apply id_or_None in Hkey.
    destruct (decide (Some key ∈ Source.info_id <$> rest)) as [Hin|Hnotin].
    + apply (load_package_sources_taken env rest _ key Hin).
      rewrite lookup_insert_eq. eauto.
    + apply IH. intros Hrest. apply Hdup.
      rewrite fmap_cons, Hkey. by constructor.
Qed.

Lemma load_package_sources_duplicate_witness :
  ∃ e sources',
    Source.load_package_sources Source.small_env
      [Source.docstring_info; Source.docstring_info] ∅ = (Raise e, sources').
Proof.
  apply (load_package_sources_duplicate Source.small_env
           [Source.docstring_info; Source.docstring_info] ∅).
  intros H. apply NoDup_cons in H as [H _]. apply H. left.
Defined.
